(** * remotesrv: server bootstrap and lifecycle controller

    A shallow embedding of [go/utils/remotesrv/main.go]: the address
    resolver [resolveIP], the start-up sequence [run] and the process entry
    point [main], together with the properties of them that the design
    document states.

    Go values are modelled as follows.
    - A Go [string] is a [string]; indices and lengths are [Z], as Go's [int].
    - A Go [error] interface value is an [option] of an error description,
      [None] being [nil].
    - A function with several results returns a tuple, error last.
    - Calls that act on the process or on the host (changing directory,
      logging, opening stores, building the server, signals) are steps of a
      small monad over the process state, which records them in a trace. *)

From Stdlib Require Import ZArith Lia Bool List Ascii String.
Import ListNotations.
Local Open Scope string_scope.
Local Open Scope Z_scope.

(** ** Strings as Go sees them *)

Module GoString.

(** [len(s)] *)
Definition len (s : string) : Z := Z.of_nat (String.length s).

(** [s[lo:hi]]; every use below has [0 <= lo <= hi <= len s]. *)
Definition slice (s : string) (lo hi : Z) : string :=
  substring (Z.to_nat lo) (Z.to_nat (hi - lo)) s.

(** [s[i] == c]; an index outside the string matches nothing. *)
Definition byte_is (s : string) (i : Z) (c : ascii) : bool :=
  match String.get (Z.to_nat i) s with
  | Some b => (0 <=? i) && Ascii.eqb b c
  | None => false
  end.

(** [bytealg.IndexByteString]: index of the first [c] in [s], or -1. *)
Fixpoint IndexByteString (s : string) (c : ascii) : Z :=
  match s with
  | EmptyString => -1
  | String b s' =>
      if Ascii.eqb b c then 0
      else let r := IndexByteString s' c in
           if r <? 0 then -1 else r + 1
  end.

(** [bytealg.LastIndexByteString]: index of the last [c] in [s], or -1. *)
Fixpoint LastIndexByteString (s : string) (c : ascii) : Z :=
  match s with
  | EmptyString => -1
  | String b s' =>
      let r := LastIndexByteString s' c in
      if 0 <=? r then r + 1
      else if Ascii.eqb b c then 0 else -1
  end.

(** [strings.HasPrefix(s, prefix)] *)
Fixpoint HasPrefix (s prefix : string) {struct prefix} : bool :=
  match prefix, s with
  | EmptyString, _ => true
  | String a prefix', String b s' => Ascii.eqb a b && HasPrefix s' prefix'
  | String _ _, EmptyString => false
  end.

(** [strings.Contains(s, sub)] *)
Fixpoint Contains (s sub : string) : bool :=
  HasPrefix s sub ||
  match s with
  | EmptyString => false
  | String _ s' => Contains s' sub
  end.

(** The byte [c] occurs nowhere in [s]. *)
Fixpoint free_of (c : ascii) (s : string) : Prop :=
  match s with
  | EmptyString => True
  | String b s' => b <> c /\ free_of c s'
  end.

End GoString.
Import GoString.

(** ** Errors *)

(** The error values that reach this program.  [withMessage] is what
    [errors.Wrap] of github.com/pkg/errors builds (the stack trace it also
    records is not observable through [Error()] and is left out);
    [fundamental] is what [errors.New] builds; [AddrError] is [net.AddrError];
    [libError] stands for an error value produced inside a library this
    program calls, known only through its message. *)
Inductive err : Type :=
| fundamental (msg : string)
| withMessage (cause : err) (msg : string)
| AddrError (Err Addr : string)
| libError (msg : string).

(** A Go [error] interface value. *)
Definition error : Type := option err.
Definition nil : error := None.

(** The [Error()] method. *)
Fixpoint Error (e : err) : string :=
  match e with
  | fundamental msg => msg
  | withMessage cause msg => msg ++ ": " ++ Error cause
  | AddrError why addr =>
      if String.eqb addr "" then why else "address " ++ addr ++ ": " ++ why
  | libError msg => msg
  end.

Definition errors_New (msg : string) : error := Some (fundamental msg).

(** [errors.Wrap] returns nil when given nil. *)
Definition errors_Wrap (e : error) (msg : string) : error :=
  match e with
  | None => None
  | Some cause => Some (withMessage cause msg)
  end.

(** ** net.SplitHostPort

    The Go standard library's [net.SplitHostPort], which [resolveIP] calls,
    written out statement by statement. *)

Definition missingPort : string := "missing port in address".
Definition tooManyColons : string := "too many colons in address".

Definition addrErr (addr why : string) : string * string * error :=
  ("", "", Some (AddrError why addr)).

Definition SplitHostPort (hostport : string) : string * string * error :=
  (* The port starts after the last colon. *)
  let i := LastIndexByteString hostport ":" in
  if i <? 0 then addrErr hostport missingPort else
  (* the two checks shared by both branches, and the final return *)
  let finish (host : string) (j k : Z) : string * string * error :=
    if 0 <=? IndexByteString (slice hostport j (len hostport)) "[" then
      addrErr hostport "unexpected '[' in address"
    else if 0 <=? IndexByteString (slice hostport k (len hostport)) "]" then
      addrErr hostport "unexpected ']' in address"
    else (host, slice hostport (i + 1) (len hostport), nil) in
  if byte_is hostport 0 "[" then
    (* Expect the first ']' just before the last ':'. *)
    let end_ := IndexByteString hostport "]" in
    if end_ <? 0 then addrErr hostport "missing ']' in address"
    else if end_ + 1 =? len hostport then addrErr hostport missingPort
    else if end_ + 1 =? i then finish (slice hostport 1 end_) 1 (end_ + 1)
    else if byte_is hostport (end_ + 1) ":" then addrErr hostport tooManyColons
    else addrErr hostport missingPort
  else
    let host := slice hostport 0 i in
    if 0 <=? IndexByteString host ":" then addrErr hostport tooManyColons
    else finish host 0 0.

(** The address forms [net.SplitHostPort] is documented to accept:
    host:port, and [host]:port for a host that itself contains colons (an
    IPv6 literal).  [HostPort hostport host port] reads: [hostport] is of
    one of these forms, with these components. *)
Inductive HostPort : string -> string -> string -> Prop :=
| HostPort_plain (host port : string) :
    free_of ":" host -> free_of "[" host -> free_of "]" host ->
    free_of ":" port -> free_of "[" port -> free_of "]" port ->
    HostPort (host ++ ":" ++ port) host port
| HostPort_bracketed (host port : string) :
    free_of "[" host -> free_of "]" host ->
    free_of ":" port -> free_of "[" port -> free_of "]" port ->
    HostPort ("[" ++ host ++ "]:" ++ port) host port.

(** ** The address resolver *)

Definition emptyHostMsg : string :=
  "host can't be empty. Use e.g. 0.0.0.0 to listen on all addresses".

Section AddressResolver.

(** [template.Parse] of github.com/hashicorp/go-sockaddr: expands the
    template actions of an address spec against the host's network
    interfaces.  It is a library outside this program, so it is a
    parameter here. *)
Variable template_Parse : string -> string * error.

Definition resolveIP (addr : string) : string * error :=
  let '(resolved, err) := template_Parse addr in
  match err with
  | Some _ => ("", errors_Wrap err "parse addr")
  | None =>
      let '(host, _, err) := SplitHostPort resolved in
      match err with
      | Some _ => ("", errors_Wrap err "split host port")
      | None =>
          if String.eqb host "" then ("", errors_New emptyHostMsg)
          else (resolved, nil)
      end
  end.

End AddressResolver.


(** What the design document calls "template syntax": the action delimiter
    of Go's text/template, which the address templates are written in. *)
Definition has_template (addr : string) : bool := Contains addr "{{".

(** The design document's names for the three ways resolution fails. *)
Inductive AddressError : Type :=
| AddressTemplateError
| AddressFormatError
| EmptyHostError.

(** Which of the three an error value returned by [resolveIP] is, read off
    the way [resolveIP] built it. *)
Definition classify (e : err) : option AddressError :=
  match e with
  | withMessage _ msg =>
      if String.eqb msg "parse addr" then Some AddressTemplateError
      else if String.eqb msg "split host port" then Some AddressFormatError
      else None
  | fundamental msg =>
      if String.eqb msg emptyHostMsg then Some EmptyHostError else None
  | _ => None
  end.

(** How an attempt at resolution ends, in the design document's terms. *)
Inductive Resolution : Type :=
| Resolved (addr : string)
| Failed (kind : AddressError).

Definition resolution (res : string * error) : option Resolution :=
  match res with
  | (r, None) => Some (Resolved r)
  | (_, Some e) => option_map Failed (classify e)
  end.

(** ** The process, its host and its collaborators *)

(** [os.Interrupt] and [os.Kill] *)
Inductive Signal : Type := Interrupt | Kill.

(** Modelled from the spec: the filesystem abstraction of
    [libraries/utils/filesys], "rooted at the working directory"; only the
    directory it is rooted at matters here. *)
Record Filesys : Type := LocalFS { workingDir : string }.

(** Modelled from the spec: a content store as [doltdb], [datas] and
    [chunks] hand it around.  [doltdb.HackDatasDatabaseFromDoltDB] and
    [datas.ChunkStoreFromDatabase] only unwrap it, so one type stands for
    the three views.  Whether a store also is a [remotesrv.RemoteSrvStore],
    as the type assertion of line 78 requires, is for the host to say. *)
Record Store : Type := OpenedStore { storeDir : string }.

(** Modelled from the spec: the environment [env.Load] returns, "an
    environment loader that validates and opens a repository given a
    directory and identity string". *)
Record DoltEnv : Type := { Valid : bool; DoltDB : Store }.

Definition HackDatasDatabaseFromDoltDB (ddb : Store) : Store := ddb.
Definition ChunkStoreFromDatabase (db : Store) : Store := db.

(** Modelled from the spec: the two cache strategies behind
    [remotesrv.DBCache], declared in the other files of this command: the
    Singleton strategy "wraps one pre-opened store instance", the lazy
    directory-keyed one is "parameterized by the filesystem abstraction". *)
Inductive DBCache : Type :=
| SingletonCSCache (cs : Store)
| LocalCSCache (fs : Filesys).

Definition NewLocalCSCache (fs : Filesys) : DBCache := LocalCSCache fs.

(** [remotesrv.ServerArgs], with the fields [run] fills in. *)
Record ServerArgs : Type := {
  HttpHost : string;
  HttpListenAddr : string;
  GrpcListenAddr : string;
  FS : Filesys;
  DBCache_ : DBCache;
  ReadOnly : bool
}.

(** Modelled from the spec: the server handle, "a listener-bindable server
    handle with bind-listeners, serve, and graceful-stop operations". *)
Record Server : Type := { serverArgs : ServerArgs }.

(** The addresses the bound listeners listen on. *)
Definition Listeners : Type := list string.

(** Everything outside the program that its behaviour depends on. *)
Record Host : Type := {
  (** [os.Chdir(dir)] in working directory [cwd]: the new working directory
      and nil, or an error. *)
  host_Chdir : string -> string -> string * error;
  (** [sockaddr.GetAllInterfaces], with which [template.Parse] begins: nil
      when the network interfaces of the host can be listed, the error of
      the operating system otherwise *)
  host_interfaces : error;
  (** what a spec with template actions evaluates to on the interfaces of
      the host ([template.ParseIfAddrs]) *)
  host_template : string -> string * error;
  (** whether [filesys.LocalFilesysWithWorkingDir(".")] fails in a
      working directory *)
  host_LocalFilesys : string -> error;
  (** what [env.Load] finds at a filesystem *)
  host_env_Load : Filesys -> DoltEnv;
  (** whether a chunk store is a [remotesrv.RemoteSrvStore] *)
  host_RemoteSrvStore : Store -> bool;
  (** whether [remotesrv.NewServer] fails *)
  host_NewServer : ServerArgs -> error;
  (** what [server.Listeners()] returns *)
  host_Listeners : Server -> Listeners * error;
  (** the signal the channel of [waitForSignal] receives, if one ever
      arrives *)
  host_signal : option Signal;
  (** whether [server.GracefulStop()] returns *)
  host_GracefulStop_returns : bool
}.

(** ** template.Parse

    [template.Parse] of github.com/hashicorp/go-sockaddr, which [resolveIP]
    calls, as far as this program depends on it. *)

(** [strings.Replace(s, old, new, -1)] for an [old] that is not empty: the
    occurrences of [old] are replaced from the left, and one that overlaps
    an occurrence already replaced is none.  [skip] counts the bytes of the
    occurrence being replaced that are still to be passed over. *)
Fixpoint Replace_from (skip : nat) (s old new : string) : string :=
  match s with
  | EmptyString => EmptyString
  | String b s' =>
      match skip with
      | S k => Replace_from k s' old new
      | O =>
          if HasPrefix s old
          then new ++ Replace_from (Nat.pred (String.length old)) s' old new
          else String b (Replace_from 0 s' old new)
      end
  end.

Definition strings_Replace (s old new : string) : string :=
  Replace_from 0 s old new.

(** [errwrap.Wrapf(format, err)] of github.com/hashicorp/errwrap, for an
    [err] that is not nil: an error whose text is [format] with the text of
    [err] in the place of every {{err}}. *)
Definition errwrap_Wrapf (format : string) (cause : err) : err :=
  libError (strings_Replace format "{{err}}" (Error cause)).

(** [template.Parse(input)] on a host.  It lists the network interfaces
    first, and when that fails it fails, whatever the input.  It then
    evaluates the input as a Go text/template on these interfaces.  Text
    outside the actions of a template is copied to the output as it is, so
    an input without the delimiter that opens an action is its own
    expansion; what an input with actions evaluates to is up to the host. *)
Definition template_Parse (h : Host) (input : string) : string * error :=
  match host_interfaces h with
  | Some cause =>
      ("", Some (errwrap_Wrapf "unable to query interface addresses: {{err}}" cause))
  | None =>
      if has_template input then host_template h input else (input, nil)
  end.

(** ** The process *)

(** What the process does that can be observed from outside, in order. *)
Inductive Event : Type :=
| EvLog (msg : string)
| EvFlagError (problem : string)
| EvUsage
| EvChdir (dir : string)
| EvResolveIP (addr : string)
| EvLocalFilesys
| EvEnvLoad (fs : Filesys)
| EvPanic
| EvNewLocalCSCache (fs : Filesys)
| EvNewServer (args : ServerArgs)
| EvListeners
| EvGoServe
| EvServeEntered
| EvServeReturned
| EvSignalNotify
| EvSignalDelivered (sig : Signal)
| EvSignalReceived (sig : Signal)
| EvGracefulStop
| EvKilled (sig : Signal).

Record Process : Type := { cwd : string; trace : list Event }.

(** A fresh process in a working directory. *)
Definition boot (dir : string) : Process := {| cwd := dir; trace := [] |}.

(** How a piece of the program ends: it returns a value, it ends the
    process with an exit status ([os.Exit], as [log.Fatal*] and
    [flag.Parse] call it, or a panic that nothing recovers), or it never
    returns. *)
Inductive Outcome (A : Type) : Type :=
| Returns (a : A)
| Exits (code : Z)
| Blocks.
Arguments Returns {A} a.
Arguments Exits {A} code.
Arguments Blocks {A}.

Definition Go (A : Type) : Type := Process -> Outcome A * Process.

Definition ret {A : Type} (a : A) : Go A := fun p => (Returns a, p).

Definition bind {A B : Type} (m : Go A) (k : A -> Go B) : Go B :=
  fun p =>
    match m p with
    | (Returns a, p') => k a p'
    | (Exits code, p') => (Exits code, p')
    | (Blocks, p') => (Blocks, p')
    end.

Notation "x <- m ;; k" := (bind m (fun x => k))
  (at level 61, m at next level, right associativity).
Notation "' pat <- m ;; k" := (bind m (fun x => match x with pat => k end))
  (at level 61, pat pattern, m at next level, right associativity).
Notation "m ;; k" := (bind m (fun _ => k))
  (at level 61, right associativity).

Definition emit (ev : Event) : Go unit :=
  fun p => (Returns tt, {| cwd := cwd p; trace := (trace p ++ [ev])%list |}).

Definition os_Exit {A : Type} (code : Z) : Go A := fun p => (Exits code, p).

Definition blocks {A : Type} : Go A := fun p => (Blocks, p).

(** [log.Println]; the operands are already joined by spaces. *)
Definition log_Println (msg : string) : Go unit := emit (EvLog msg).

(** [log.Fatalln] and [log.Fatalf]: print, then [os.Exit(1)]. *)
Definition log_Fatal {A : Type} (msg : string) : Go A :=
  emit (EvLog msg) ;; os_Exit 1.

(** A panic that nothing recovers: the Go runtime reports it and ends the
    process with status 2. *)
Definition panic {A : Type} : Go A := emit EvPanic ;; os_Exit 2.

Definition os_Chdir (h : Host) (dir : string) : Go error :=
  fun p =>
    let '(cwd', err) := host_Chdir h (cwd p) dir in
    (Returns err,
     {| cwd := match err with None => cwd' | Some _ => cwd p end;
        trace := (trace p ++ [EvChdir dir])%list |}).

(** A call of [resolveIP]: it reads the host's network configuration
    through [template.Parse], which the trace records. *)
Definition call_resolveIP (h : Host) (addr : string) : Go (string * error) :=
  emit (EvResolveIP addr) ;; ret (resolveIP (template_Parse h) addr).

Definition LocalFilesysWithWorkingDir (h : Host) : Go (Filesys * error) :=
  fun p =>
    (Returns (LocalFS (cwd p), host_LocalFilesys h (cwd p)),
     {| cwd := cwd p; trace := (trace p ++ [EvLocalFilesys])%list |}).

Definition env_Load (h : Host) (fs : Filesys) : Go DoltEnv :=
  emit (EvEnvLoad fs) ;; ret (host_env_Load h fs).

(** [cs.(remotesrv.RemoteSrvStore)]: a type assertion with one result
    panics when the value is not of the type. *)
Definition assert_RemoteSrvStore (h : Host) (cs : Store) : Go Store :=
  if host_RemoteSrvStore h cs then ret cs else panic.

Definition NewServer (h : Host) (args : ServerArgs) : Go (Server * error) :=
  emit (EvNewServer args) ;;
  ret ({| serverArgs := args |}, host_NewServer h args).

Definition server_Listeners (h : Host) (server : Server) : Go (Listeners * error) :=
  emit EvListeners ;; ret (host_Listeners h server).

(** [go func() { server.Serve(listeners) }()]: the go statement starts the
    call as a goroutine of its own and returns at once; what [Serve] returns
    is dropped. *)
Definition go_Serve (server : Server) (listeners : Listeners) : Go unit :=
  emit EvGoServe.

Definition server_GracefulStop (h : Host) (server : Server) : Go unit :=
  emit EvGracefulStop ;;
  if host_GracefulStop_returns h then ret tt else blocks.

Definition waitForSignal (h : Host) : Go unit :=
  (* c := make(chan os.Signal, 1); signal.Notify(c, os.Interrupt, os.Kill) *)
  emit EvSignalNotify ;;
  (* <-c *)
  match host_signal h with
  | Some sig => emit (EvSignalReceived sig)
  | None => blocks
  end.

(** ** Flags *)

(** The values a command line gives to the flags, for each flag it gives
    one to. *)
Record Flags : Type := {
  given_read_only : option bool;
  given_repo_mode : option bool;
  given_dir : option string;
  given_grpc_addr : option string;
  given_http_addr : option string;
  given_http_host : option string
}.

(** What [flag.Parse] makes of the command line: the values of the flags;
    or a request for help (-h or -help, which are not flags of this
    program); or a command line it rejects, for a flag that is not defined
    or a value that does not parse, with its complaint. *)
Inductive CommandLine : Type :=
| Parsed (given : Flags)
| Help
| BadFlag (problem : string).

(** The value [flag.Parse] has given to a flag when it returns; it gives
    none when it does not return. *)
Definition arg_read_only (args : CommandLine) : option bool :=
  match args with Parsed given => given_read_only given | _ => None end.

Definition arg_repo_mode (args : CommandLine) : option bool :=
  match args with Parsed given => given_repo_mode given | _ => None end.

Definition arg_dir (args : CommandLine) : option string :=
  match args with Parsed given => given_dir given | _ => None end.

Definition arg_grpc_addr (args : CommandLine) : option string :=
  match args with Parsed given => given_grpc_addr given | _ => None end.

Definition arg_http_addr (args : CommandLine) : option string :=
  match args with Parsed given => given_http_addr given | _ => None end.

Definition arg_http_host (args : CommandLine) : option string :=
  match args with Parsed given => given_http_host given | _ => None end.

(** [flag.Bool] and [flag.String] with their default value.  The pointers
    they return are never nil, so the values stand for them. *)
Definition flag_Bool (given : option bool) (value : bool) : bool :=
  match given with Some b => b | None => value end.

Definition flag_String (given : option string) (value : string) : string :=
  match given with Some s => s | None => value end.

(** [flag.Parse()].  The flag set of the command line handles errors with
    [flag.ExitOnError]: on a command line it rejects, [flag.Parse] prints
    its complaint and the usage and exits with status 2; asked for help, it
    prints the usage and exits with status 0. *)
Definition flag_Parse (args : CommandLine) : Go unit :=
  match args with
  | Parsed _ => ret tt
  | Help => emit EvUsage ;; os_Exit 0
  | BadFlag problem => emit (EvFlagError problem) ;; emit EvUsage ;; os_Exit 2
  end.

Definition no_flags : CommandLine :=
  Parsed
    {| given_read_only := None; given_repo_mode := None; given_dir := None;
       given_grpc_addr := None; given_http_addr := None;
       given_http_host := None |}.

(** ** run and main *)

Definition run (h : Host) (args : CommandLine) : Go error :=
  let readOnlyParam := flag_Bool (arg_read_only args) false in
  let repoModeParam := flag_Bool (arg_repo_mode args) false in
  let dirParam := flag_String (arg_dir args) "" in
  let grpcAddrParam := flag_String (arg_grpc_addr args) "localhost:50051" in
  let httpAddrParam := flag_String (arg_http_addr args) "localhost:80" in
  let httpHostParam := flag_String (arg_http_host args) "" in
  flag_Parse args ;;
  (if 0 <? len dirParam then
     err <- os_Chdir h dirParam ;;
     match err with
     | Some e =>
         log_Fatal ("failed to chdir to: " ++ dirParam ++ " error: " ++ Error e)
     | None => log_Println ("cwd set to " ++ dirParam)
     end
   else
     log_Println "'dir' parameter not provided. Using the current working dir.") ;;
  '(grpcAddr, err) <- call_resolveIP h grpcAddrParam ;;
  match err with
  | Some _ => ret (errors_Wrap err "parse grpc addr")
  | None =>
  '(httpAddr, err) <- call_resolveIP h httpAddrParam ;;
  match err with
  | Some _ => ret (errors_Wrap err "parse http addr")
  | None =>
  '(fs, err) <- LocalFilesysWithWorkingDir h ;;
  match err with
  | Some e => log_Fatal ("could not get cwd path: " ++ Error e)
  | None => ret tt
  end ;;
  dbCache <-
    (if repoModeParam then
       dEnv <- env_Load h fs ;;
       (if negb (Valid dEnv) then log_Fatal "repo-mode failed to load repository"
        else ret tt) ;;
       let db := HackDatasDatabaseFromDoltDB (DoltDB dEnv) in
       let cs := ChunkStoreFromDatabase db in
       store <- assert_RemoteSrvStore h cs ;;
       ret (SingletonCSCache store)
     else
       emit (EvNewLocalCSCache fs) ;; ret (NewLocalCSCache fs)) ;;
  '(server, err) <- NewServer h {|
    HttpHost := httpHostParam;
    HttpListenAddr := httpAddr;
    GrpcListenAddr := grpcAddr;
    FS := fs;
    DBCache_ := dbCache;
    ReadOnly := readOnlyParam
  |} ;;
  match err with
  | Some e => log_Fatal ("error creating remotesrv Server: " ++ Error e)
  | None => ret tt
  end ;;
  '(listeners, err) <- server_Listeners h server ;;
  match err with
  | Some e => log_Fatal ("error starting remotesrv Server listeners: " ++ Error e)
  | None => ret tt
  end ;;
  go_Serve server listeners ;;
  waitForSignal h ;;
  server_GracefulStop h server ;;
  ret nil
  end
  end.

Definition main (h : Host) (args : CommandLine) : Go unit :=
  err <- run h args ;;
  match err with
  | Some e => log_Fatal ("error: " ++ Error e)
  | None => ret tt
  end.

(** The exit status of the process, when it ends: zero when [main]
    returns, the status it exits with otherwise. *)
Definition exit_status (o : Outcome unit) : option Z :=
  match o with
  | Returns _ => Some 0
  | Exits code => Some code
  | Blocks => None
  end.

(** ** Reading traces *)

(** The events of the control task from the go statement on (lines 98 to
    102, and [waitForSignal]). *)
Definition is_control (ev : Event) : bool :=
  match ev with
  | EvGoServe | EvSignalNotify | EvSignalReceived _ | EvGracefulStop => true
  | _ => false
  end.

Definition control_events (tr : list Event) : list Event := filter is_control tr.

(** The control task's events of a whole lifecycle, for the signal
    received. *)
Definition lifecycle_events (sig : Signal) : list Event :=
  [EvGoServe; EvSignalNotify; EvSignalReceived sig; EvGracefulStop].

(** What the control task does from the go statement on, on a host: it
    starts serving and registers for the signals, and when the signal
    arrives it receives it and invokes [GracefulStop]. *)
Definition lifecycle_of (h : Host) : list Event :=
  match host_signal h with
  | Some sig => lifecycle_events sig
  | None => [EvGoServe; EvSignalNotify]
  end.

(** Calls of [resolveIP]. *)
Definition is_resolve (ev : Event) : bool :=
  match ev with EvResolveIP _ => true | _ => false end.



(** [os.Chdir] is called. *)
Definition is_chdir (ev : Event) : bool :=
  match ev with EvChdir _ => true | _ => false end.

(** A signal is taken from the channel. *)
Definition is_received (ev : Event) : bool :=
  match ev with EvSignalReceived _ => true | _ => false end.

(** The ordering of the stop sequence in a trace: wherever
    [GracefulStop] is invoked, serving was started and a signal was received
    before, serving is not started again afterwards, and it is the only
    invocation. *)
Definition stop_ordered (tr : list Event) : Prop :=
  forall pre post : list Event,
    tr = (pre ++ EvGracefulStop :: post)%list ->
    In EvGoServe pre /\
    (exists sig, In (EvSignalReceived sig) pre) /\
    ~ In EvGoServe post /\
    ~ In EvGracefulStop pre /\
    ~ In EvGracefulStop post.

(** An event happens at most once in a trace. *)
Definition at_most_once (ev : Event) (tr : list Event) : Prop :=
  forall pre post : list Event,
    tr = (pre ++ ev :: post)%list -> ~ In ev pre /\ ~ In ev post.

(** A trace ends with these events. *)
Definition ends_with (tr suffix : list Event) : Prop :=
  exists pre : list Event, tr = (pre ++ suffix)%list.

(** ** The lifecycle with its two tasks

    Lines 98 to 104 with the goroutine and the signals of the operating
    system made explicit: the control task, the task that runs
    [server.Serve], and signal delivery take steps in any order. *)

Module Lifecycle.

(** The statement the control task is at: the go statement (line 98),
    [signal.Notify] (line 133), the channel receive (line 134),
    [GracefulStop] (line 102), the return (line 104). *)
Inductive Control : Type := AtGo | AtNotify | AtReceive | AtStop | AtReturn.

(** The task that serves. *)
Inductive Serving : Type := NotStarted | Started | InServe | ServeReturned.

Record State : Type := {
  control : Control;
  serving : Serving;
  (** [signal.Notify] has registered the channel *)
  notified : bool;
  (** the channel [c], of capacity one *)
  channel : option Signal;
  (** the process has not been killed *)
  alive : bool
}.

Definition init : State :=
  {| control := AtGo; serving := NotStarted; notified := false;
     channel := None; alive := true |}.

(** The three states of the design document. *)
Inductive Phase : Type := Starting | ServingPhase | Stopping.

Definition phase (st : State) : Phase :=
  match control st with
  | AtGo => Starting
  | AtNotify | AtReceive => ServingPhase
  | AtStop | AtReturn => Stopping
  end.

(** The order of the three states. *)
Definition phase_rank (ph : Phase) : nat :=
  match ph with
  | Starting => 0
  | ServingPhase => 1
  | Stopping => 2
  end.

Inductive step : State -> Event -> State -> Prop :=
| step_go (st : State) :
    alive st = true -> control st = AtGo ->
    step st EvGoServe
      {| control := AtNotify; serving := Started; notified := notified st;
         channel := channel st; alive := true |}
| step_notify (st : State) :
    alive st = true -> control st = AtNotify ->
    step st EvSignalNotify
      {| control := AtReceive; serving := serving st; notified := true;
         channel := channel st; alive := true |}
| step_receive (st : State) (sig : Signal) :
    alive st = true -> control st = AtReceive -> channel st = Some sig ->
    step st (EvSignalReceived sig)
      {| control := AtStop; serving := serving st; notified := notified st;
         channel := None; alive := true |}
| step_stop (st : State) :
    alive st = true -> control st = AtStop ->
    step st EvGracefulStop
      {| control := AtReturn; serving := serving st; notified := notified st;
         channel := channel st; alive := true |}
(* the goroutine is scheduled and enters server.Serve *)
| step_serve_enter (st : State) :
    alive st = true -> serving st = Started ->
    step st EvServeEntered
      {| control := control st; serving := InServe; notified := notified st;
         channel := channel st; alive := true |}
| step_serve_return (st : State) :
    alive st = true -> serving st = InServe ->
    step st EvServeReturned
      {| control := control st; serving := ServeReturned;
         notified := notified st; channel := channel st; alive := true |}
(* an interrupt while the channel is registered and empty is buffered *)
| step_deliver (st : State) :
    alive st = true -> notified st = true -> channel st = None ->
    step st (EvSignalDelivered Interrupt)
      {| control := control st; serving := serving st; notified := true;
         channel := Some Interrupt; alive := true |}
(* an interrupt while the channel is full is dropped *)
| step_drop (st : State) (sig : Signal) :
    alive st = true -> notified st = true -> channel st = Some sig ->
    step st (EvSignalDelivered Interrupt) st
(* a kill, or an interrupt nobody is registered for, ends the process *)
| step_killed (st : State) (sig : Signal) :
    alive st = true -> sig = Kill \/ notified st = false ->
    step st (EvKilled sig)
      {| control := control st; serving := serving st;
         notified := notified st; channel := channel st; alive := false |}.

(** The executions from the initial state, with their traces. *)
Inductive execution : list Event -> State -> Prop :=
| exec_init : execution [] init
| exec_step (tr : list Event) (st : State) (ev : Event) (st' : State) :
    execution tr st -> step st ev st' -> execution (tr ++ [ev])%list st'.

(** What the control task has done when it is at a statement. *)
Definition history (c : Control) (sig : Signal) : list Event :=
  match c with
  | AtGo => []
  | AtNotify => [EvGoServe]
  | AtReceive => [EvGoServe; EvSignalNotify]
  | AtStop => [EvGoServe; EvSignalNotify; EvSignalReceived sig]
  | AtReturn => lifecycle_events sig
  end.

End Lifecycle.


(** The operating system delivers a signal. *)
Definition is_delivered (ev : Event) : bool :=
  match ev with EvSignalDelivered _ => true | _ => false end.

(** ** The steps of start-up *)





(** ** Sample hosts

    Concrete hosts and command lines, on which the theorems below are
    instantiated. *)

(** The double quote. *)
Definition dq : string := String "034"%char EmptyString.

(** An address spec whose action evaluates to the private address of the
    host. *)
Definition private_ip_spec : string := "{{ GetPrivateIP }}:50051".

(** An address spec whose action names a function that no template has. *)
Definition err_spec : string := "{{err}}:80".

(** What text/template says of an action that names a function it does not
    have, and of an action that is not closed, in the first line of the
    template [template.Parse] sets up under the name sockaddr.Parse. *)
Definition function_not_defined (name : string) : string :=
  "template: sockaddr.Parse:1: function " ++ dq ++ name ++ dq ++ " not defined".

Definition unclosed_action : string :=
  "template: sockaddr.Parse:1: unclosed action".

(** The error of [template.ParseIfAddrs] for an input that does not parse
    as a template: [errwrap.Wrapf] of the format that
    [fmt.Sprintf("unable to parse template %+q: {{err}}", input)] makes,
    and of the error of text/template.  The rendering of the input by %+q is
    here the input between double quotes, which it is for an input of
    printable ASCII without double quote and backslash. *)
Definition unable_to_parse (input cause : string) : err :=
  errwrap_Wrapf ("unable to parse template " ++ dq ++ input ++ dq ++ ": {{err}}")
                (libError cause).

(** Templates on the sample host, whose private address is 10.0.0.5.  Of
    the specs with actions three are put to it below: [private_ip_spec],
    [err_spec] and the unclosed "{{"; to these it answers as the library
    does.  It answers every other spec as it answers the last, which is the
    library's answer for a plain spec whose only fault is an unclosed
    action, and for no other. *)
Definition sample_template (input : string) : string * error :=
  if String.eqb input private_ip_spec then ("10.0.0.5:50051", nil)
  else if String.eqb input err_spec
  then ("", Some (unable_to_parse input (function_not_defined "err")))
  else ("", Some (unable_to_parse input unclosed_action)).

(** A host with a repository at /srv/repo and no directory /nonexistent,
    on which an interrupt arrives while the server is serving. *)
Definition sample_host : Host := {|
  host_Chdir := fun cwd dir =>
    if String.eqb dir "/nonexistent"
    then ("", Some (libError "chdir /nonexistent: no such file or directory"))
    else (dir, nil);
  host_interfaces := nil;
  host_template := sample_template;
  host_LocalFilesys := fun _ => nil;
  host_env_Load := fun fs =>
    {| Valid := String.eqb (workingDir fs) "/srv/repo";
       DoltDB := OpenedStore (workingDir fs) |};
  host_RemoteSrvStore := fun _ => true;
  host_NewServer := fun _ => nil;
  host_Listeners := fun server =>
    ([GrpcListenAddr (serverArgs server); HttpListenAddr (serverArgs server)], nil);
  host_signal := Some Interrupt;
  host_GracefulStop_returns := true
|}.

(** [template.Parse] on the sample host. *)
Definition literal_Parse : string -> string * error := template_Parse sample_host.

(** The sample host when the process may not list the network interfaces:
    [net.Interfaces] fails there with the error of the netlink request. *)
Definition no_interfaces_host : Host := {|
  host_Chdir := host_Chdir sample_host;
  host_interfaces := Some (libError "route ip+net: netlinkrib: permission denied");
  host_template := sample_template;
  host_LocalFilesys := host_LocalFilesys sample_host;
  host_env_Load := host_env_Load sample_host;
  host_RemoteSrvStore := fun _ => true;
  host_NewServer := fun _ => nil;
  host_Listeners := host_Listeners sample_host;
  host_signal := Some Interrupt;
  host_GracefulStop_returns := true
|}.

(** [template.Parse] on that host: it fails for every address spec. *)
Definition no_interfaces_Parse : string -> string * error :=
  template_Parse no_interfaces_host.

(** The sample host with the http port taken: the listeners cannot be
    bound. *)
Definition busy_port_host : Host := {|
  host_Chdir := host_Chdir sample_host;
  host_interfaces := nil;
  host_template := sample_template;
  host_LocalFilesys := host_LocalFilesys sample_host;
  host_env_Load := host_env_Load sample_host;
  host_RemoteSrvStore := fun _ => true;
  host_NewServer := fun _ => nil;
  host_Listeners := fun _ =>
    ([], Some (libError "listen tcp 127.0.0.1:80: bind: address already in use"));
  host_signal := Some Interrupt;
  host_GracefulStop_returns := true
|}.

(** The sample host on which no signal ever arrives. *)
Definition quiet_host : Host := {|
  host_Chdir := host_Chdir sample_host;
  host_interfaces := nil;
  host_template := sample_template;
  host_LocalFilesys := host_LocalFilesys sample_host;
  host_env_Load := host_env_Load sample_host;
  host_RemoteSrvStore := fun _ => true;
  host_NewServer := fun _ => nil;
  host_Listeners := host_Listeners sample_host;
  host_signal := None;
  host_GracefulStop_returns := true
|}.

(** The sample host with a repository whose chunk store is no
    [remotesrv.RemoteSrvStore]. *)
Definition foreign_store_host : Host := {|
  host_Chdir := host_Chdir sample_host;
  host_interfaces := nil;
  host_template := sample_template;
  host_LocalFilesys := host_LocalFilesys sample_host;
  host_env_Load := host_env_Load sample_host;
  host_RemoteSrvStore := fun _ => false;
  host_NewServer := fun _ => nil;
  host_Listeners := host_Listeners sample_host;
  host_signal := Some Interrupt;
  host_GracefulStop_returns := true
|}.

(** Command lines for the sample host. *)

(** --repo-mode, started in a directory that is not a repository *)
Definition repo_mode_flags : CommandLine :=
  Parsed
    {| given_read_only := None; given_repo_mode := Some true; given_dir := None;
       given_grpc_addr := None; given_http_addr := None;
       given_http_host := None |}.

(** --grpc-addr=:50051 --http-addr=:80: both addresses lack a host *)
Definition bad_addr_flags : CommandLine :=
  Parsed
    {| given_read_only := None; given_repo_mode := None; given_dir := None;
       given_grpc_addr := Some ":50051"; given_http_addr := Some ":80";
       given_http_host := None |}.

(** the same with --dir=/nonexistent *)
Definition bad_dir_flags : CommandLine :=
  Parsed
    {| given_read_only := None; given_repo_mode := None;
       given_dir := Some "/nonexistent";
       given_grpc_addr := Some ":50051"; given_http_addr := Some ":80";
       given_http_host := None |}.

(** --grpc-addr=:50051 --bogus: a flag the program does not have *)
Definition bogus_flag_line : CommandLine :=
  BadFlag "flag provided but not defined: -bogus".

(** --http-addr=localhost: the http address lacks a port *)
Definition bad_http_flags : CommandLine :=
  Parsed
    {| given_read_only := None; given_repo_mode := None; given_dir := None;
       given_grpc_addr := None; given_http_addr := Some "localhost";
       given_http_host := None |}.

(** --dir=/srv/repo --repo-mode *)
Definition repo_dir_flags : CommandLine :=
  Parsed
    {| given_read_only := None; given_repo_mode := Some true;
       given_dir := Some "/srv/repo";
       given_grpc_addr := None; given_http_addr := None;
       given_http_host := None |}.

(** --dir=/srv/repo --http-addr=localhost *)
Definition dir_bad_http_flags : CommandLine :=
  Parsed
    {| given_read_only := None; given_repo_mode := None;
       given_dir := Some "/srv/repo";
       given_grpc_addr := None; given_http_addr := Some "localhost";
       given_http_host := None |}.

(** What [run] passes to [remotesrv.NewServer] with no flags in /home. *)
Definition default_server_args : ServerArgs :=
  {| HttpHost := ""; HttpListenAddr := "localhost:80";
     GrpcListenAddr := "localhost:50051"; FS := LocalFS "/home";
     DBCache_ := LocalCSCache (LocalFS "/home"); ReadOnly := false |}.

(** * Properties *)

(** ** Strings *)

Lemma len_nonneg (s : string) : 0 <= len s.
Proof. unfold len; lia. Qed.

Lemma len_String (b : ascii) (s : string) : len (String b s) = len s + 1.
Proof. unfold len. change (String.length (String b s)) with (S (String.length s)). lia. Qed.

Lemma len_app (a b : string) : len (a ++ b) = len a + len b.
Proof.
  induction a as [|x a IH]; cbn [append].
  - change (len "") with 0; lia.
  - rewrite !len_String, IH; lia.
Qed.

Lemma substring_all (s : string) : substring 0 (String.length s) s = s.
Proof. induction s as [|x s IH]; simpl; [reflexivity | now rewrite IH]. Qed.

Lemma substring_app_left (a b : string) : substring 0 (String.length a) (a ++ b) = a.
Proof.
  induction a as [|x a IH]; simpl.
  - destruct b; reflexivity.
  - now rewrite IH.
Qed.

Lemma substring_app_right (a b : string) (m : nat) :
  substring (String.length a) m (a ++ b) = substring 0 m b.
Proof. induction a as [|x a IH]; simpl; [reflexivity | exact IH]. Qed.

Lemma slice_all (s : string) : slice s 0 (len s) = s.
Proof.
  unfold slice, len. rewrite Z.sub_0_r, Nat2Z.id. apply substring_all.
Qed.

Lemma slice_app_left (a b : string) : slice (a ++ b) 0 (len a) = a.
Proof.
  unfold slice, len. rewrite Z.sub_0_r, Nat2Z.id. apply substring_app_left.
Qed.

Lemma slice_app_right (a b : string) : slice (a ++ b) (len a) (len (a ++ b)) = b.
Proof.
  unfold slice. rewrite len_app.
  replace (len a + len b - len a) with (len b) by lia.
  unfold len. rewrite !Nat2Z.id, substring_app_right. apply substring_all.
Qed.

Lemma slice_tail (x : ascii) (s : string) (lo hi : Z) :
  0 <= lo -> slice (String x s) (lo + 1) (hi + 1) = slice s lo hi.
Proof.
  intro H. unfold slice.
  replace (hi + 1 - (lo + 1)) with (hi - lo) by lia.
  replace (Z.to_nat (lo + 1)) with (S (Z.to_nat lo)) by lia.
  reflexivity.
Qed.

Lemma slice_head (x : ascii) (s : string) (hi : Z) :
  0 <= hi -> slice (String x s) 0 (hi + 1) = String x (slice s 0 hi).
Proof.
  intro H. unfold slice. rewrite !Z.sub_0_r.
  replace (Z.to_nat (hi + 1)) with (S (Z.to_nat hi)) by lia.
  reflexivity.
Qed.

Lemma free_of_app (c : ascii) (a b : string) :
  free_of c (a ++ b) <-> free_of c a /\ free_of c b.
Proof. induction a as [|x a IH]; simpl; tauto. Qed.

Lemma IndexByteString_range (s : string) (c : ascii) :
  -1 <= IndexByteString s c < len s.
Proof.
  induction s as [|x s IH]; simpl.
  - unfold len; simpl; lia.
  - rewrite len_String. destruct (Ascii.eqb x c).
    + pose proof (len_nonneg s); lia.
    + destruct (Z.ltb_spec (IndexByteString s c) 0); lia.
Qed.

Lemma LastIndexByteString_range (s : string) (c : ascii) :
  -1 <= LastIndexByteString s c < len s.
Proof.
  induction s as [|x s IH]; simpl.
  - unfold len; simpl; lia.
  - rewrite len_String.
    destruct (Z.leb_spec 0 (LastIndexByteString s c)); [lia|].
    pose proof (len_nonneg s). destruct (Ascii.eqb x c); lia.
Qed.

(** A byte is absent exactly when its index is negative. *)
Lemma IndexByteString_free (s : string) (c : ascii) :
  free_of c s <-> IndexByteString s c < 0.
Proof.
  induction s as [|x s IH]; simpl.
  - split; [lia | trivial].
  - destruct (Ascii.eqb_spec x c) as [->|Hne].
    + split; [intros [H _]; congruence | lia].
    + pose proof (IndexByteString_range s c).
      destruct (Z.ltb_spec (IndexByteString s c) 0); split; try tauto; try lia.
      intros [_ H']. apply IH in H'. lia.
Qed.

Lemma LastIndexByteString_free (s : string) (c : ascii) :
  free_of c s <-> LastIndexByteString s c < 0.
Proof.
  induction s as [|x s IH]; simpl.
  - split; [lia | trivial].
  - pose proof (LastIndexByteString_range s c).
    destruct (Z.leb_spec 0 (LastIndexByteString s c)).
    + split; [intros [_ H']; apply IH in H'; lia | lia].
    + destruct (Ascii.eqb_spec x c) as [->|Hne].
      * split; [intros [H' _]; congruence | lia].
      * split; [lia | tauto].
Qed.

(** The first occurrence splits the string; what precedes it is free of
    the byte. *)
Lemma IndexByteString_split (s : string) (c : ascii) (i : Z) :
  IndexByteString s c = i -> 0 <= i ->
  s = slice s 0 i ++ String c (slice s (i + 1) (len s)) /\
  free_of c (slice s 0 i).
Proof.
  revert i. induction s as [|x s IH]; cbn [IndexByteString]; intros i Hi Hpos.
  - lia.
  - rewrite len_String. destruct (Ascii.eqb_spec x c) as [->|Hne].
    + subst i. rewrite (slice_tail c s 0 (len s)) by lia. rewrite slice_all.
      split; [reflexivity | exact I].
    + destruct (Z.ltb_spec (IndexByteString s c) 0); [lia|].
      subst i. destruct (IH _ eq_refl) as [E F]; [lia|].
      rewrite slice_head by lia. rewrite slice_tail by lia.
      split; [cbn [append]; f_equal; exact E | split; assumption].
Qed.

(** The last occurrence splits the string; what follows it is free of the
    byte. *)
Lemma LastIndexByteString_split (s : string) (c : ascii) (i : Z) :
  LastIndexByteString s c = i -> 0 <= i ->
  s = slice s 0 i ++ String c (slice s (i + 1) (len s)) /\
  free_of c (slice s (i + 1) (len s)).
Proof.
  revert i. induction s as [|x s IH]; cbn [LastIndexByteString]; intros i Hi Hpos.
  - lia.
  - rewrite len_String.
    destruct (Z.leb_spec 0 (LastIndexByteString s c)).
    + subst i. destruct (IH _ eq_refl) as [E F]; [lia|].
      rewrite slice_head by lia. rewrite slice_tail by lia.
      split; [cbn [append]; f_equal; exact E | exact F].
    + destruct (Ascii.eqb_spec x c) as [->|Hne]; [|lia].
      subst i. rewrite (slice_tail c s 0 (len s)) by lia. rewrite slice_all.
      split; [reflexivity|]. now apply LastIndexByteString_free.
Qed.

Lemma IndexByteString_app_free (a b : string) (c : ascii) :
  free_of c a ->
  IndexByteString (a ++ String c b) c = len a.
Proof.
  induction a as [|x a IH]; simpl; intro F.
  - now rewrite Ascii.eqb_refl.
  - destruct F as [Hne F]. rewrite len_String, (IH F).
    destruct (Ascii.eqb_spec x c); [congruence|].
    pose proof (len_nonneg a).
    destruct (Z.ltb_spec (len a) 0); lia.
Qed.

Lemma LastIndexByteString_app_free (a b : string) (c : ascii) :
  free_of c b ->
  LastIndexByteString (a ++ String c b) c = len a.
Proof.
  intro F. induction a as [|x a IH]; simpl.
  - apply LastIndexByteString_free in F.
    destruct (Z.leb_spec 0 (LastIndexByteString b c)); [lia|].
    now rewrite Ascii.eqb_refl.
  - rewrite IH, len_String. pose proof (len_nonneg a).
    destruct (Z.leb_spec 0 (len a)); lia.
Qed.

Lemma append_assoc (a b c : string) : (a ++ b) ++ c = a ++ b ++ c.
Proof. induction a as [|x a IH]; cbn [append]; [reflexivity | now rewrite IH]. Qed.

Lemma append_inj_len (a a' b b' : string) :
  a ++ b = a' ++ b' -> len a = len a' -> a = a' /\ b = b'.
Proof.
  revert a'. induction a as [|x a IH]; intros [|x' a'] E L;
    rewrite ?len_String in L; change (len "") with 0 in L.
  - split; [reflexivity | exact E].
  - pose proof (len_nonneg a'); lia.
  - pose proof (len_nonneg a); lia.
  - cbn [append] in E. injection E as -> E.
    destruct (IH a' E) as [-> ->]; [lia | split; reflexivity].
Qed.

Lemma len_slice_prefix (s : string) (i : Z) :
  0 <= i <= len s -> len (slice s 0 i) = i.
Proof.
  revert i. induction s as [|x s IH]; intros i H.
  - change (len "") with 0 in H. replace i with 0 by lia. reflexivity.
  - rewrite len_String in H. destruct (Z.eq_dec i 0) as [->|Hne].
    + reflexivity.
    + replace i with ((i - 1) + 1) at 1 by lia.
      rewrite slice_head by lia. rewrite len_String, IH; lia.
Qed.

Lemma byte_is_head (s : string) (c : ascii) :
  byte_is s 0 c = true <-> exists s', s = String c s'.
Proof.
  unfold byte_is. destruct s as [|x s]; cbn.
  - split; [discriminate | intros [s' H]; discriminate].
  - destruct (Ascii.eqb_spec x c) as [->|Hne].
    + split; [eauto | reflexivity].
    + split; [discriminate | intros [s' H]; congruence].
Qed.

Lemma free_of_Index (s : string) (c : ascii) :
  free_of c s -> (0 <=? IndexByteString s c) = false.
Proof. intro F. apply IndexByteString_free in F. apply Z.leb_gt. exact F. Qed.

Lemma Index_free_of (s : string) (c : ascii) :
  (0 <=? IndexByteString s c) = false -> free_of c s.
Proof. intro H. apply IndexByteString_free. apply Z.leb_gt. exact H. Qed.

(** ** net.SplitHostPort *)

(** Every address of the plain form splits into its components. *)
Lemma SplitHostPort_plain (host port : string) :
  free_of ":" host -> free_of "[" host -> free_of "]" host ->
  free_of ":" port -> free_of "[" port -> free_of "]" port ->
  SplitHostPort (host ++ ":" ++ port) = (host, port, nil).
Proof.
  intros Hc Hl Hr Pc Pl Pr. unfold SplitHostPort.
  change (host ++ ":" ++ port) with (host ++ String ":" port).
  rewrite (LastIndexByteString_app_free host port ":" Pc).
  pose proof (len_nonneg host) as Hlen.
  destruct (Z.ltb_spec (len host) 0); [lia|].
  assert (Hb : byte_is (host ++ String ":" port) 0 "[" = false).
  { destruct (byte_is (host ++ String ":" port) 0 "[") eqn:E; [|reflexivity].
    apply byte_is_head in E. destruct E as [s' E].
    destruct host as [|x host]; cbn [append] in E; [discriminate|].
    injection E as -> _. destruct Hl as [Hl _]. congruence. }
  rewrite Hb, slice_app_left, (free_of_Index host ":" Hc), slice_all.
  assert (Fl : free_of "[" (host ++ String ":" port)).
  { apply free_of_app. split; [assumption | split; [discriminate | assumption]]. }
  assert (Fr : free_of "]" (host ++ String ":" port)).
  { apply free_of_app. split; [assumption | split; [discriminate | assumption]]. }
  rewrite (free_of_Index _ _ Fl), (free_of_Index _ _ Fr).
  replace (host ++ String ":" port) with ((host ++ ":") ++ port)
    by (rewrite append_assoc; reflexivity).
  replace (len host + 1) with (len (host ++ ":"))
    by (rewrite len_app; reflexivity).
  rewrite slice_app_right. reflexivity.
Qed.

(** Every address of the bracketed form splits into its components. *)
Lemma SplitHostPort_bracketed (host port : string) :
  free_of "[" host -> free_of "]" host ->
  free_of ":" port -> free_of "[" port -> free_of "]" port ->
  SplitHostPort ("[" ++ host ++ "]:" ++ port) = (host, port, nil).
Proof.
  intros Hl Hr Pc Pl Pr. unfold SplitHostPort.
  set (s := "[" ++ host ++ "]:" ++ port).
  pose proof (len_nonneg host) as Hh. pose proof (len_nonneg port) as Hp.
  assert (Ls : len s = len host + len port + 3).
  { unfold s. rewrite !len_app. change (len "[") with 1. change (len "]:") with 2. lia. }
  assert (E1 : s = ("[" ++ host ++ "]") ++ String ":" port).
  { unfold s. rewrite !append_assoc. reflexivity. }
  assert (L1 : len ("[" ++ host ++ "]") = len host + 2).
  { rewrite !len_app. change (len "[") with 1. change (len "]") with 1. lia. }
  assert (E2 : s = ("[" ++ host) ++ String "]" (":" ++ port)).
  { unfold s. rewrite !append_assoc. reflexivity. }
  assert (L2 : len ("[" ++ host) = len host + 1).
  { rewrite len_app. change (len "[") with 1. lia. }
  assert (I : LastIndexByteString s ":" = len host + 2).
  { rewrite E1, LastIndexByteString_app_free, L1; [reflexivity | assumption]. }
  assert (J : IndexByteString s "]" = len host + 1).
  { rewrite E2, IndexByteString_app_free, L2; [reflexivity|].
    split; [discriminate | assumption]. }
  rewrite I, J.
  destruct (Z.ltb_spec (len host + 2) 0); [lia|].
  replace (byte_is s 0 "[") with true by reflexivity.
  destruct (Z.ltb_spec (len host + 1) 0); [lia|].
  destruct (Z.eqb_spec (len host + 1 + 1) (len s)); [lia|].
  destruct (Z.eqb_spec (len host + 1 + 1) (len host + 2)); [|lia].
  (* hostport[1:] *)
  assert (S1 : slice s 1 (len s) = host ++ "]:" ++ port).
  { unfold s. change ("[" ++ host ++ "]:" ++ port)
      with (String "[" (host ++ "]:" ++ port)).
    rewrite len_String. rewrite (slice_tail _ _ 0) by lia. apply slice_all. }
  (* hostport[end+1:] *)
  assert (S2 : slice s (len host + 1 + 1) (len s) = String ":" port).
  { replace (len host + 1 + 1) with (len ("[" ++ host ++ "]")) by lia.
    rewrite E1. apply slice_app_right. }
  (* hostport[1:end] *)
  assert (S3 : slice s 1 (len host + 1) = host).
  { unfold s. change ("[" ++ host ++ "]:" ++ port)
      with (String "[" (host ++ "]:" ++ port)).
    rewrite (slice_tail _ _ 0) by lia. apply slice_app_left. }
  (* hostport[i+1:] *)
  assert (S4 : slice s (len host + 2 + 1) (len s) = port).
  { assert (E3 : s = ("[" ++ host ++ "]:") ++ port)
      by (unfold s; rewrite !append_assoc; reflexivity).
    replace (len host + 2 + 1) with (len ("[" ++ host ++ "]:")).
    - rewrite E3. apply slice_app_right.
    - rewrite !len_app. change (len "[") with 1. change (len "]:") with 2. lia. }
  rewrite S1, S2, S3, S4.
  rewrite free_of_Index.
  - rewrite free_of_Index; [reflexivity|]. split; [discriminate | assumption].
  - apply free_of_app. split; [assumption|].
    split; [discriminate | split; [discriminate | assumption]].
Qed.

(** A failed split returns empty components and a [net.AddrError] on the
    address it was given. *)
Lemma SplitHostPort_error (s h p : string) (e : err) :
  SplitHostPort s = (h, p, Some e) ->
  h = "" /\ p = "" /\ exists why, e = AddrError why s.
Proof.
  unfold SplitHostPort, addrErr, nil.
  repeat match goal with
         | |- context [if ?c then _ else _] => destruct c
         end;
    intro H; inversion H; subst; eauto.
Qed.

(** A successful split only happens on one of the two address forms. *)
Lemma SplitHostPort_sound (s h p : string) :
  SplitHostPort s = (h, p, nil) -> HostPort s h p.
Proof.
  unfold SplitHostPort, addrErr, nil.
  pose proof (LastIndexByteString_range s ":") as Ri.
  destruct (Z.ltb_spec (LastIndexByteString s ":") 0) as [|Hi]; [discriminate|].
  destruct (LastIndexByteString_split s ":" _ eq_refl Hi) as [Ei Fi].
  set (i := LastIndexByteString s ":") in *.
  destruct (byte_is s 0 "[") eqn:Hb.
  - (* bracketed *)
    pose proof (IndexByteString_range s "]") as Re.
    destruct (Z.ltb_spec (IndexByteString s "]") 0) as [|He]; [discriminate|].
    destruct (IndexByteString_split s "]" _ eq_refl He) as [Ee Fe].
    set (e := IndexByteString s "]") in *.
    destruct (Z.eqb_spec (e + 1) (len s)); [discriminate|].
    destruct (Z.eqb_spec (e + 1) i) as [Hei|];
      [|destruct (byte_is s (e + 1) ":"); discriminate].
    destruct (0 <=? IndexByteString (slice s 1 (len s)) "[") eqn:Cl; [discriminate|].
    destruct (0 <=? IndexByteString (slice s (e + 1) (len s)) "]") eqn:Cr; [discriminate|].
    intro H. injection H as <- <-.
    apply Index_free_of in Cl, Cr.
    apply byte_is_head in Hb. destruct Hb as [s' Hs].
    assert (e <> 0).
    { intro E0. unfold e in E0. rewrite Hs in E0. cbn in E0.
      destruct (Z.ltb_spec (IndexByteString s' "]") 0); lia. }
    (* the prefix up to the bracket is the prefix up to the colon, less one byte *)
    assert (A : slice s 0 e ++ "]" = slice s 0 i /\
                slice s (e + 1) (len s) = String ":" (slice s (i + 1) (len s))).
    { apply append_inj_len.
      - rewrite append_assoc. cbn [append]. rewrite <- Ee. exact Ei.
      - rewrite len_app, !len_slice_prefix by lia. change (len "]") with 1. lia. }
    destruct A as [A1 A2].
    assert (B : slice s 0 e = String "[" (slice s 1 e)).
    { rewrite Hs. replace e with ((e - 1) + 1) by lia.
      rewrite slice_head by lia. rewrite (slice_tail _ _ 0) by lia. reflexivity. }
    assert (C : slice s 1 (len s) = s').
    { rewrite Hs, len_String. rewrite (slice_tail _ _ 0) by lia. apply slice_all. }
    assert (Es : s = "[" ++ slice s 1 e ++ "]:" ++ slice s (i + 1) (len s)).
    { rewrite Ee at 1. rewrite A2, B. reflexivity. }
    rewrite Es at 1.
    rewrite B in Fe. destruct Fe as [_ Fe].
    rewrite A2 in Cr. destruct Cr as [_ Cr].
    rewrite C in Cl.
    assert (Es' : s' = slice s 1 e ++ "]:" ++ slice s (i + 1) (len s)).
    { rewrite Hs in Es at 1. cbn [append] in Es. injection Es as Es. exact Es. }
    rewrite Es' in Cl. apply free_of_app in Cl. destruct Cl as [Cl1 Cl2].
    destruct Cl2 as [_ [_ Cl2]].
    apply HostPort_bracketed; assumption.
  - (* plain *)
    destruct (0 <=? IndexByteString (slice s 0 i) ":") eqn:Cc; [discriminate|].
    rewrite slice_all.
    destruct (0 <=? IndexByteString s "[") eqn:Cl; [discriminate|].
    destruct (0 <=? IndexByteString s "]") eqn:Cr; [discriminate|].
    intro H. injection H as <- <-.
    apply Index_free_of in Cc, Cl, Cr.
    rewrite Ei in Cl, Cr. apply free_of_app in Cl, Cr.
    destruct Cl as [Cl1 [_ Cl2]]. destruct Cr as [Cr1 [_ Cr2]].
    rewrite Ei at 1.
    change (String ":" (slice s (i + 1) (len s)))
      with (":" ++ slice s (i + 1) (len s)).
    apply HostPort_plain; assumption.
Qed.

(** [net.SplitHostPort] succeeds exactly on the two address forms, and
    returns their components. *)
Lemma SplitHostPort_spec (s h p : string) :
  SplitHostPort s = (h, p, nil) <-> HostPort s h p.
Proof.
  split.
  - apply SplitHostPort_sound.
  - intros [host port ? ? ? ? ? ?|host port ? ? ? ? ?].
    + now apply SplitHostPort_plain.
    + now apply SplitHostPort_bracketed.
Qed.

(** ** The address resolver *)

Lemma append_nil_r (s : string) : s ++ "" = s.
Proof. induction s as [|x s IH]; cbn; [|rewrite IH]; reflexivity. Qed.

Lemma Contains_app_right (a b sub : string) :
  Contains b sub = true -> Contains (a ++ b) sub = true.
Proof.
  intro H. induction a as [|x a IH]; [exact H|].
  cbn [append]. change (Contains (String x (a ++ b)) sub)
    with (HasPrefix (String x (a ++ b)) sub || Contains (a ++ b) sub).
  rewrite IH. apply orb_true_r.
Qed.

(** Where the interfaces can be listed, a spec without template syntax is
    its own expansion. *)
Lemma template_Parse_literal (h : Host) (s : string) :
  host_interfaces h = nil ->
  has_template s = false -> template_Parse h s = (s, nil).
Proof. unfold template_Parse. intros -> ->. reflexivity. Qed.

(** Where they cannot, [template.Parse] fails whatever the spec, with an
    error that says so and names the cause. *)
Lemma template_Parse_no_interfaces (h : Host) (cause : err) (s : string) :
  host_interfaces h = Some cause ->
  exists e,
    template_Parse h s = ("", Some e) /\
    Error e = "unable to query interface addresses: " ++ Error cause.
Proof.
  unfold template_Parse. intros ->. eexists. split; [reflexivity|].
  cbn. rewrite append_nil_r. reflexivity.
Qed.

Lemma literal_Parse_literal (s : string) :
  has_template s = false -> literal_Parse s = (s, nil).
Proof. apply template_Parse_literal. reflexivity. Qed.

Lemma HostPort_localhost : HostPort "localhost:50051" "localhost" "50051".
Proof.
  apply (HostPort_plain "localhost" "50051"); cbn; repeat split; discriminate.
Qed.

Lemma HostPort_bare_port : HostPort ":8080" "" "8080".
Proof.
  apply (HostPort_plain "" "8080"); cbn; repeat split; discriminate.
Qed.

(** An address with a host never starts with the colon of a bare port. *)
Lemma HostPort_not_bare (s h p : string) :
  HostPort s h p -> h <> "" -> HasPrefix s ":" = false.
Proof.
  intros [host port Hc _ _ _ _ _|host port _ _ _ _ _] Hne.
  - destruct host as [|x host]; [congruence|].
    destruct Hc as [Hx _]. cbn [append HasPrefix].
    destruct (Ascii.eqb_spec ":" x) as [E|]; [congruence | reflexivity].
  - reflexivity.
Qed.

Section ResolverProperties.

Variable Parse : string -> string * error.

(** The four ways through [resolveIP], by what the template library and the
    shape of the expanded address say. *)
Lemma resolveIP_template_error (addr r : string) (e : err) :
  Parse addr = (r, Some e) ->
  resolveIP Parse addr = ("", Some (withMessage e "parse addr")).
Proof. unfold resolveIP. intros ->. reflexivity. Qed.

Lemma resolveIP_format_error (addr resolved : string) :
  Parse addr = (resolved, nil) ->
  (forall h p, ~ HostPort resolved h p) ->
  exists why,
    resolveIP Parse addr =
    ("", Some (withMessage (AddrError why resolved) "split host port")).
Proof.
  unfold resolveIP. intros -> Hno.
  destruct (SplitHostPort resolved) as [[h p] [e|]] eqn:E.
  - apply SplitHostPort_error in E. destruct E as (_ & _ & why & ->).
    exists why. reflexivity.
  - apply SplitHostPort_sound in E. destruct (Hno _ _ E).
Qed.

Lemma resolveIP_empty_host (addr resolved port : string) :
  Parse addr = (resolved, nil) ->
  HostPort resolved "" port ->
  resolveIP Parse addr = ("", errors_New emptyHostMsg).
Proof.
  unfold resolveIP. intros -> H.
  apply SplitHostPort_spec in H. rewrite H. reflexivity.
Qed.

Lemma resolveIP_success (addr resolved host port : string) :
  Parse addr = (resolved, nil) ->
  HostPort resolved host port -> host <> "" ->
  resolveIP Parse addr = (resolved, nil).
Proof.
  unfold resolveIP. intros -> H Hne.
  apply SplitHostPort_spec in H. rewrite H. cbn.
  apply String.eqb_neq in Hne. rewrite Hne. reflexivity.
Qed.

(** Conversely, a resolved address is the expansion of the spec and has a
    host. *)
Lemma resolveIP_success_inv (addr r : string) :
  resolveIP Parse addr = (r, nil) ->
  Parse addr = (r, nil) /\ exists host port, HostPort r host port /\ host <> "".
Proof.
  unfold resolveIP.
  destruct (Parse addr) as [resolved [e|]]; [discriminate|].
  destruct (SplitHostPort resolved) as [[h p] [e|]] eqn:E; [discriminate|].
  destruct (String.eqb_spec h ""); [discriminate|].
  intro H. injection H as <-. split; [reflexivity|].
  exists h, p. split; [now apply SplitHostPort_sound | assumption].
Qed.

(** Every failure of [resolveIP] is one of the three, in this order of
    precedence, and comes with the empty string. *)
Lemma resolveIP_failure_inv (addr r : string) (e : err) :
  resolveIP Parse addr = (r, Some e) ->
  r = "" /\
  ((exists r0 e0, Parse addr = (r0, Some e0) /\ e = withMessage e0 "parse addr") \/
   (exists resolved why,
       Parse addr = (resolved, nil) /\ (forall h p, ~ HostPort resolved h p) /\
       e = withMessage (AddrError why resolved) "split host port") \/
   (exists resolved port,
       Parse addr = (resolved, nil) /\ HostPort resolved "" port /\
       e = fundamental emptyHostMsg)).
Proof.
  unfold resolveIP.
  destruct (Parse addr) as [resolved [e0|]].
  - intro H. injection H as <- <-. split; [reflexivity|]. left. eauto.
  - destruct (SplitHostPort resolved) as [[h p] [e1|]] eqn:E.
    + intro H. injection H as <- <-. split; [reflexivity|]. right; left.
      pose proof (SplitHostPort_error _ _ _ _ E) as (_ & _ & why & ->).
      exists resolved, why. repeat split.
      intros h' p' Hhp. apply SplitHostPort_spec in Hhp.
      rewrite Hhp in E. discriminate.
    + destruct (String.eqb_spec h "") as [->|]; [|discriminate].
      intro H. injection H as <- <-. split; [reflexivity|]. right; right.
      exists resolved, p. repeat split. now apply SplitHostPort_sound.
Qed.

End ResolverProperties.

(** ** Traces *)

Lemma control_events_app (l1 l2 : list Event) :
  control_events (l1 ++ l2) = (control_events l1 ++ control_events l2)%list.
Proof. apply filter_app. Qed.

Lemma control_events_In (ev : Event) (tr : list Event) :
  is_control ev = true -> In ev tr -> In ev (control_events tr).
Proof. intros H Hin. apply filter_In. split; assumption. Qed.

Lemma In_control_events (ev : Event) (tr : list Event) :
  In ev (control_events tr) -> In ev tr.
Proof. intro H. apply filter_In in H. tauto. Qed.

Lemma snoc_cases {A : Type} (l : list A) :
  l = [] \/ exists l' x, l = (l' ++ [x])%list.
Proof. induction l as [|x l _] using rev_ind; eauto. Qed.

(** A trace whose control events are the beginning of a lifecycle has its
    stop sequence in order. *)
Lemma stop_ordered_of_control (tr : list Event) (sig : Signal) (n : nat) :
  control_events tr = firstn n (lifecycle_events sig) ->
  stop_ordered tr.
Proof.
  intros H pre post ->.
  rewrite control_events_app in H.
  change (control_events (EvGracefulStop :: post))
    with (EvGracefulStop :: control_events post) in H.
  assert (E : control_events pre =
              [EvGoServe; EvSignalNotify; EvSignalReceived sig] /\
              control_events post = []).
  { remember (control_events pre) as l1 eqn:E1.
    remember (control_events post) as l2 eqn:E2.
    clear E1 E2.
    destruct n as [|[|[|[|n]]]]; cbn in H; rewrite ?firstn_nil in H;
      destruct l1 as [|x1 [|x2 [|x3 [|x4 l1]]]]; cbn in H;
      try discriminate; inversion H; subst; try discriminate.
    - split; reflexivity.
    - destruct l1; discriminate. }
  destruct E as [E1 E2].
  assert (N : forall ev, is_control ev = true -> ~ In ev post).
  { intros ev Hev Hin. apply (control_events_In ev post Hev) in Hin.
    rewrite E2 in Hin. exact Hin. }
  assert (P : forall ev, In ev (control_events pre) -> In ev pre)
    by (intro ev; apply In_control_events).
  rewrite E1 in P.
  repeat split.
  - apply P. cbn. tauto.
  - exists sig. apply P. cbn. tauto.
  - apply N. reflexivity.
  - intro Hin. apply (control_events_In EvGracefulStop pre eq_refl) in Hin.
    rewrite E1 in Hin. cbn in Hin. intuition discriminate.
  - apply N. reflexivity.
Qed.

(** In such a trace no event of the control task happens twice. *)
Lemma at_most_once_of_control (tr : list Event) (sig : Signal) (n : nat) (ev : Event) :
  control_events tr = firstn n (lifecycle_events sig) ->
  is_control ev = true ->
  at_most_once ev tr.
Proof.
  intros H Hev pre post ->.
  assert (ND : NoDup (control_events (pre ++ ev :: post))).
  { rewrite H.
    destruct n as [|[|[|[|n]]]]; cbn; rewrite ?firstn_nil;
      repeat constructor; cbn; intuition discriminate. }
  rewrite control_events_app in ND.
  cbn [control_events filter] in ND. rewrite Hev in ND.
  apply NoDup_remove_2 in ND.
  split; intro Hin; apply ND, in_or_app; [left | right];
    now apply control_events_In.
Qed.

(** ** run, path by path *)

Ltac split_match :=
  match goal with
  | |- context [match ?x with _ => _ end] =>
      lazymatch x with
      | context [match _ with _ => _ end] => fail
      | _ => destruct x eqn:?
      end
  end.

Ltac run_unfold :=
  cbv beta iota zeta delta
    [main run bind flag_Parse call_resolveIP LocalFilesysWithWorkingDir
     env_Load assert_RemoteSrvStore NewServer server_Listeners go_Serve
     server_GracefulStop waitForSignal
     os_Chdir log_Fatal log_Println panic emit os_Exit blocks ret boot
     arg_read_only arg_repo_mode arg_dir arg_grpc_addr arg_http_addr
     arg_http_host
     cwd trace app fst snd negb
     errors_Wrap errors_New nil
     HackDatasDatabaseFromDoltDB ChunkStoreFromDatabase NewLocalCSCache].

(** One goal for every path through [run] (and [main]). *)
Ltac run_split :=
  run_unfold; repeat (split_match; run_unfold);
  cbn [arg_read_only arg_repo_mode arg_dir arg_grpc_addr arg_http_addr
       arg_http_host] in *.

(** The three kinds of command line, one by one. *)
Ltac on_command_line args :=
  destruct args as [given| |problem];
  cbn [arg_read_only arg_repo_mode arg_dir arg_grpc_addr arg_http_addr
       arg_http_host] in *.

(** The control task's events in a run are the beginning of a lifecycle. *)
Lemma run_control_events (h : Host) (args : CommandLine) (d : string) :
  exists sig n,
    control_events (trace (snd (run h args (boot d)))) =
    firstn n (lifecycle_events sig).
Proof.
  run_split;
    first [ exists Interrupt, 0%nat; reflexivity
          | exists Interrupt, 1%nat; reflexivity
          | exists Interrupt, 2%nat; reflexivity
          | match goal with
            | s : Signal |- _ =>
                first [ exists s, 3%nat; reflexivity
                      | exists s, 4%nat; reflexivity ]
            end ].
Qed.

(** [main] adds to what [run] did only the report of the error [run]
    returned. *)
Lemma main_after_run (h : Host) (args : CommandLine) (p : Process) :
  main h args p =
  match run h args p with
  | (Returns (Some e), p') =>
      (Exits 1,
       {| cwd := cwd p'; trace := (trace p' ++ [EvLog ("error: " ++ Error e)])%list |})
  | (Returns None, p') => (Returns tt, p')
  | (Exits code, p') => (Exits code, p')
  | (Blocks, p') => (Blocks, p')
  end.
Proof.
  unfold main, bind. destruct (run h args p) as [[[e|]|code|] p']; reflexivity.
Qed.

(** ** The lifecycle with its two tasks *)

Module LifecycleFacts.
Import Lifecycle.

Lemma history_firstn (c : Control) (sig : Signal) :
  exists n, history c sig = firstn n (lifecycle_events sig).
Proof.
  destruct c;
    [exists 0%nat | exists 1%nat | exists 2%nat | exists 3%nat | exists 4%nat];
    reflexivity.
Qed.

(** No step takes the lifecycle back to an earlier state: Stopping is
    terminal, and Starting is not entered again. *)
Lemma step_phase (st : State) (ev : Event) (st' : State) :
  step st ev st' -> (phase_rank (phase st) <= phase_rank (phase st'))%nat.
Proof.
  unfold phase. destruct 1; cbn [control];
    repeat match goal with
           | H : control _ = _ |- _ => rewrite H
           end;
    cbn; try lia; destruct (control st); cbn; lia.
Qed.

(** The control task's events of an execution are what the statement it
    has reached says. *)
Lemma execution_history (tr : list Event) (st : State) :
  execution tr st ->
  exists sig, control_events tr = history (control st) sig.
Proof.
  induction 1 as [|tr st ev st' Hexec [sig IH] Hstep].
  - exists Interrupt. reflexivity.
  - rewrite control_events_app.
    destruct Hstep as [st _ Hc|st _ Hc|st sig' _ Hc _|st _ Hc| | | | |];
      cbn [control control_events filter is_control];
      rewrite ?app_nil_r; try (exists sig; exact IH);
      rewrite Hc in IH; rewrite IH.
    + exists sig. reflexivity.
    + exists sig. reflexivity.
    + exists sig'. reflexivity.
    + exists sig. reflexivity.
Qed.

(** A signal in the channel, and a signal received from it, was delivered
    by the operating system before. *)
Lemma execution_delivered (tr : list Event) (st : State) :
  execution tr st ->
  (forall sig, channel st = Some sig -> In (EvSignalDelivered sig) tr) /\
  (forall pre post sig,
      tr = (pre ++ EvSignalReceived sig :: post)%list ->
      In (EvSignalDelivered sig) pre).
Proof.
  induction 1 as [|tr st ev st' Hexec [IHc IHr] Hstep].
  - split; [discriminate|]. intros [|? ?] ? ? ?; discriminate.
  - split.
    + intros sig Hsig. apply in_or_app.
      destruct Hstep; cbn [channel] in Hsig;
        try discriminate; try (left; now apply IHc).
      injection Hsig as <-. right. left. reflexivity.
    + intros pre post sig E.
      destruct (snoc_cases post) as [->|(post' & x & ->)].
      * (* the step just taken is the receive *)
        apply app_inj_tail in E. destruct E as [-> ->].
        inversion Hstep; subst. now apply IHc.
      * rewrite app_comm_cons, app_assoc in E.
        apply app_inj_tail in E. destruct E as [E _].
        now apply (IHr pre post').
Qed.

End LifecycleFacts.

(** ** Concrete runs *)

Example split_localhost :
  SplitHostPort "localhost:50051" = ("localhost", "50051", nil).
Proof. reflexivity. Qed.

Example split_bare_port : SplitHostPort ":8080" = ("", "8080", nil).
Proof. reflexivity. Qed.

Example split_ipv6 : SplitHostPort "[::1]:80" = ("::1", "80", nil).
Proof. reflexivity. Qed.

Example split_no_port :
  SplitHostPort "localhost" = addrErr "localhost" missingPort.
Proof. reflexivity. Qed.

Example split_colons : SplitHostPort "a:b:c" = addrErr "a:b:c" tooManyColons.
Proof. reflexivity. Qed.

Example split_bracket_in_port :
  SplitHostPort "a:[1" = addrErr "a:[1" "unexpected '[' in address".
Proof. reflexivity. Qed.

Example split_unclosed : SplitHostPort "[::1:80" = addrErr "[::1:80" "missing ']' in address".
Proof. reflexivity. Qed.

Example split_bracket_no_port :
  SplitHostPort "[foo:bar]" = addrErr "[foo:bar]" missingPort.
Proof. reflexivity. Qed.

Example split_bracket_then_text :
  SplitHostPort "[foo]bar:baz" = addrErr "[foo]bar:baz" missingPort.
Proof. reflexivity. Qed.

Example split_bracket_colons :
  SplitHostPort "[foo]:[bar]:baz" = addrErr "[foo]:[bar]:baz" tooManyColons.
Proof. reflexivity. Qed.

Example split_bracket_in_host :
  SplitHostPort "foo[bar]:baz" = addrErr "foo[bar]:baz" "unexpected '[' in address".
Proof. reflexivity. Qed.

Example split_closing_bracket :
  SplitHostPort "foo]bar:baz" = addrErr "foo]bar:baz" "unexpected ']' in address".
Proof. reflexivity. Qed.

Example split_empty_port : SplitHostPort "localhost:" = ("localhost", "", nil).
Proof. reflexivity. Qed.

Example split_zone : SplitHostPort "[fe80::1%eth0]:80" = ("fe80::1%eth0", "80", nil).
Proof. reflexivity. Qed.

Example resolve_default_grpc :
  resolveIP literal_Parse "localhost:50051" = ("localhost:50051", nil).
Proof. reflexivity. Qed.

Example resolve_bare_port :
  resolveIP literal_Parse ":8080" = ("", errors_New emptyHostMsg).
Proof. reflexivity. Qed.

Example resolve_no_port :
  option_map Error (snd (resolveIP literal_Parse "localhost")) =
  Some "split host port: address localhost: missing port in address".
Proof. reflexivity. Qed.

Example resolve_template :
  resolveIP literal_Parse private_ip_spec = ("10.0.0.5:50051", nil).
Proof. reflexivity. Qed.

Example resolve_unclosed_action :
  option_map Error (snd (resolveIP literal_Parse "{{")) =
  Some ("parse addr: unable to parse template " ++ dq ++ "{{" ++ dq ++
        ": template: sockaddr.Parse:1: unclosed action").
Proof. reflexivity. Qed.

Example resolve_without_interfaces :
  option_map Error (snd (resolveIP no_interfaces_Parse "localhost:50051")) =
  Some "parse addr: unable to query interface addresses: route ip+net: netlinkrib: permission denied".
Proof. reflexivity. Qed.

Example run_default_flags :
  run sample_host no_flags (boot "/home") =
  (Returns nil,
   {| cwd := "/home";
      trace :=
        [EvLog "'dir' parameter not provided. Using the current working dir.";
         EvResolveIP "localhost:50051"; EvResolveIP "localhost:80";
         EvLocalFilesys; EvNewLocalCSCache (LocalFS "/home");
         EvNewServer
           {| HttpHost := ""; HttpListenAddr := "localhost:80";
              GrpcListenAddr := "localhost:50051"; FS := LocalFS "/home";
              DBCache_ := LocalCSCache (LocalFS "/home"); ReadOnly := false |};
         EvListeners; EvGoServe; EvSignalNotify;
         EvSignalReceived Interrupt; EvGracefulStop] |}).
Proof. reflexivity. Qed.

Example main_repo_mode_without_repository :
  main sample_host repo_mode_flags (boot "/home") =
  (Exits 1,
   {| cwd := "/home";
      trace :=
        [EvLog "'dir' parameter not provided. Using the current working dir.";
         EvResolveIP "localhost:50051"; EvResolveIP "localhost:80";
         EvLocalFilesys; EvEnvLoad (LocalFS "/home");
         EvLog "repo-mode failed to load repository"] |}).
Proof. reflexivity. Qed.

Example main_bad_http_addr :
  main sample_host dir_bad_http_flags (boot "/home") =
  (Exits 1,
   {| cwd := "/srv/repo";
      trace :=
        [EvChdir "/srv/repo"; EvLog "cwd set to /srv/repo";
         EvResolveIP "localhost:50051"; EvResolveIP "localhost";
         EvLog "error: parse http addr: split host port: address localhost: missing port in address"] |}).
Proof. reflexivity. Qed.


Example main_help : main sample_host Help (boot "/home") =
  (Exits 0, {| cwd := "/home"; trace := [EvUsage] |}).
Proof. reflexivity. Qed.

Example main_bogus_flag :
  main sample_host bogus_flag_line (boot "/home") =
  (Exits 2,
   {| cwd := "/home";
      trace := [EvFlagError "flag provided but not defined: -bogus"; EvUsage] |}).
Proof. reflexivity. Qed.

(** ** The run as one schedule of the two tasks *)

(** Membership in a trace that is written out, case by case. *)
Ltac in_trace H :=
  cbn [In] in H;
  repeat (destruct H as [H|H]; [try discriminate H|]); try contradiction.

(** An event is in a trace that is written out. *)
Ltac in_list := cbn [In]; repeat (first [left; reflexivity | right]).

(** A trace that is written out ends with given events. *)
Ltac find_prefix :=
  unfold ends_with;
  match goal with
  | |- exists pre, ?l = (pre ++ _)%list =>
      first [ exists (firstn 0 l); reflexivity
            | exists (firstn 1 l); reflexivity
            | exists (firstn 2 l); reflexivity
            | exists (firstn 3 l); reflexivity
            | exists (firstn 4 l); reflexivity
            | exists (firstn 5 l); reflexivity
            | exists (firstn 6 l); reflexivity
            | exists (firstn 7 l); reflexivity
            | exists (firstn 8 l); reflexivity
            | exists (firstn 9 l); reflexivity
            | exists (firstn 10 l); reflexivity ]
  end.

(** The control task has started serving and waits for the signal. *)
Lemma execution_waiting :
  exists st,
    Lifecycle.execution [EvGoServe; EvSignalNotify] st /\
    Lifecycle.control st = Lifecycle.AtReceive.
Proof.
  eexists. split.
  - eapply (Lifecycle.exec_step [EvGoServe]).
    + eapply (Lifecycle.exec_step []).
      * apply Lifecycle.exec_init.
      * apply Lifecycle.step_go; reflexivity.
    + apply Lifecycle.step_notify; reflexivity.
  - reflexivity.
Qed.

(** An interrupt has arrived and the control task has invoked
    [GracefulStop], while the goroutine started by the go statement has not
    been scheduled yet. *)
Lemma execution_stopped :
  exists st,
    Lifecycle.execution
      [EvGoServe; EvSignalNotify; EvSignalDelivered Interrupt;
       EvSignalReceived Interrupt; EvGracefulStop] st /\
    Lifecycle.control st = Lifecycle.AtReturn /\
    Lifecycle.serving st = Lifecycle.Started /\
    Lifecycle.alive st = true.
Proof.
  eexists. split.
  - eapply (Lifecycle.exec_step
              [EvGoServe; EvSignalNotify; EvSignalDelivered Interrupt;
               EvSignalReceived Interrupt]).
    + eapply (Lifecycle.exec_step
                [EvGoServe; EvSignalNotify; EvSignalDelivered Interrupt]).
      * eapply (Lifecycle.exec_step [EvGoServe; EvSignalNotify]).
        -- eapply (Lifecycle.exec_step [EvGoServe]).
           ++ eapply (Lifecycle.exec_step []).
              ** apply Lifecycle.exec_init.
              ** apply Lifecycle.step_go; reflexivity.
           ++ apply Lifecycle.step_notify; reflexivity.
        -- apply Lifecycle.step_deliver; reflexivity.
      * apply Lifecycle.step_receive; reflexivity.
    + apply Lifecycle.step_stop; reflexivity.
  - repeat split.
Qed.

(** What [run] does from the go statement on is what the control task of
    the two-task lifecycle does in one of its executions: the one in which
    the signal, when one arrives, is an interrupt delivered while the
    control task waits.  (A kill cannot be received: it ends the process.) *)
Lemma run_is_scheduled (h : Host) (args : CommandLine) (d : string) :
  host_signal h <> Some Kill ->
  exists tr st,
    Lifecycle.execution tr st /\
    control_events tr = control_events (trace (snd (run h args (boot d)))).
Proof.
  destruct execution_waiting as (st2 & E2 & _).
  destruct execution_stopped as (st4 & E4 & _).
  run_split; intro Hk;
    first [ exists [], Lifecycle.init; split;
              [apply Lifecycle.exec_init | reflexivity]
          | eexists; exists st2; split; [exact E2 | reflexivity]
          | match goal with
            | s : Signal |- _ =>
                destruct s; [|congruence];
                eexists; exists st4; split; [exact E4 | reflexivity]
            end ].
Qed.

(** Once the server is built and its listeners are bound, [run] starts
    serving, registers for the signals and waits; when the signal arrives it
    invokes [GracefulStop], and returns nil when that returns. *)
Lemma run_serves (h : Host) (args : CommandLine) (d : string) (sargs : ServerArgs) :
  In (EvNewServer sargs) (trace (snd (run h args (boot d)))) ->
  host_NewServer h sargs = nil ->
  snd (host_Listeners h {| serverArgs := sargs |}) = nil ->
  ends_with (trace (snd (run h args (boot d)))) (EvListeners :: lifecycle_of h) /\
  fst (run h args (boot d)) =
    match host_signal h with
    | Some _ => if host_GracefulStop_returns h then Returns nil else Blocks
    | None => Blocks
    end.
Proof.
  unfold lifecycle_of.
  run_split; intro Hin; in_trace Hin; injection Hin as <-;
    unfold nil in *; cbn [snd] in *; intros Hnew Hlis; try congruence;
    (split; [find_prefix | reflexivity]).
Qed.

(** How a run that has ended, or hangs, got there. *)
Lemma run_outcome (h : Host) (args : CommandLine) (d : string) :
  (fst (run h args (boot d)) = Returns nil ->
   host_GracefulStop_returns h = true /\
   exists sig,
     host_signal h = Some sig /\
     ends_with (trace (snd (run h args (boot d))))
               (EvListeners :: lifecycle_events sig)) /\
  (fst (run h args (boot d)) = Blocks ->
   ends_with (trace (snd (run h args (boot d)))) (EvListeners :: lifecycle_of h) /\
   (host_signal h = None \/ host_GracefulStop_returns h = false)) /\
  (forall e,
      fst (run h args (boot d)) = Returns (Some e) ->
      In (EvResolveIP (flag_String (arg_grpc_addr args) "localhost:50051"))
         (trace (snd (run h args (boot d)))) /\
      ~ In EvGoServe (trace (snd (run h args (boot d))))) /\
  (forall code,
      fst (run h args (boot d)) = Exits code ->
      ~ In EvGoServe (trace (snd (run h args (boot d))))).
Proof.
  unfold lifecycle_of.
  run_split; (split; [|split; [|split]]);
    try (intros ? Hr); try (intro Hr); try discriminate Hr.
  all: first
         [ split; [reflexivity|]; eexists; split; [reflexivity | find_prefix]
         | split; [find_prefix | first [left; reflexivity | right; reflexivity]]
         | split; [in_list | intro Hin; in_trace Hin]
         | intro Hin; in_trace Hin ].
Qed.

(** * The claims *)

(** ** The address resolver *)

(** C1, as the claim has it, fails: [template.Parse] lists the network
    interfaces of the host before it looks at the spec.  On a host where
    they cannot be listed the spec localhost:50051, which has no template
    syntax and is of the form host:port with a host, is not returned:
    [resolveIP] fails with a template error about the interfaces. *)
Lemma literal_spec_fails_without_interfaces :
  has_template "localhost:50051" = false /\
  HostPort "localhost:50051" "localhost" "50051" /\
  "localhost" <> "" /\
  resolveIP no_interfaces_Parse "localhost:50051" <> ("localhost:50051", nil) /\
  exists e,
    resolveIP no_interfaces_Parse "localhost:50051" = ("", Some e) /\
    classify e = Some AddressTemplateError /\
    Error e =
      "parse addr: unable to query interface addresses: route ip+net: netlinkrib: permission denied".
Proof.
  split; [reflexivity|]. split; [exact HostPort_localhost|].
  split; [discriminate|]. split; [discriminate|].
  eexists. repeat split.
Qed.

(** C1, amended.  For every address spec that contains no template syntax
    and is of a valid host:port form with a non-empty host: where the
    network interfaces of the host can be listed, [resolveIP] succeeds and
    returns the spec itself, unchanged; where they cannot, it fails with the
    template error that wraps the complaint of [template.Parse] about the
    interfaces. *)
Theorem resolveIP_literal_unchanged (h : Host) (addr host port : string) :
  has_template addr = false ->
  HostPort addr host port ->
  host <> "" ->
  (host_interfaces h = nil ->
   resolveIP (template_Parse h) addr = (addr, nil)) /\
  (forall cause,
      host_interfaces h = Some cause ->
      exists e,
        resolveIP (template_Parse h) addr = ("", Some (withMessage e "parse addr")) /\
        Error e = "unable to query interface addresses: " ++ Error cause).
Proof.
  intros Hno Hform Hhost. split.
  - intro Hif.
    apply (resolveIP_success (template_Parse h) addr addr host port); auto.
    now apply template_Parse_literal.
  - intros cause Hif.
    destruct (template_Parse_no_interfaces h cause addr Hif) as (e & HP & Ht).
    exists e. split; [|exact Ht].
    now apply (resolveIP_template_error (template_Parse h) addr "" e).
Qed.

Lemma resolveIP_literal_unchanged_witness :
  resolveIP literal_Parse "localhost:50051" = ("localhost:50051", nil).
Proof.
  refine (proj1 (resolveIP_literal_unchanged sample_host
                   "localhost:50051" "localhost" "50051" _ _ _) _).
  - reflexivity.
  - exact HostPort_localhost.
  - discriminate.
  - reflexivity.
Defined.

(** C2.  For every address spec whose template expansion has an empty
    host component, such as ":8080", [resolveIP] fails with the empty-host
    error; and no address that [resolveIP] accepts is a bare port: it has a
    non-empty host and does not start with the colon. *)
Theorem resolveIP_rejects_empty_host (Parse : string -> string * error) :
  (forall addr resolved port,
      Parse addr = (resolved, nil) ->
      HostPort resolved "" port ->
      resolveIP Parse addr = ("", Some (fundamental emptyHostMsg)) /\
      classify (fundamental emptyHostMsg) = Some EmptyHostError) /\
  (forall addr port,
      Parse addr = (":" ++ port, nil) ->
      snd (resolveIP Parse addr) <> nil) /\
  (forall addr r,
      resolveIP Parse addr = (r, nil) ->
      HasPrefix r ":" = false /\
      exists host port, HostPort r host port /\ host <> "").
Proof.
  split; [|split].
  - intros addr resolved port HP Hform. split; [|reflexivity].
    now apply (resolveIP_empty_host Parse addr resolved port).
  - intros addr port HP Hok.
    destruct (resolveIP Parse addr) as [r e] eqn:E. cbn in Hok. subst e.
    apply resolveIP_success_inv in E.
    destruct E as [E (host & p & Hform & Hne)].
    rewrite HP in E. injection E as <-.
    apply (HostPort_not_bare _ _ _ Hform) in Hne.
    cbn [append HasPrefix] in Hne. rewrite Ascii.eqb_refl in Hne.
    discriminate.
  - intros addr r E. apply resolveIP_success_inv in E.
    destruct E as [_ (host & port & Hform & Hne)]. split.
    + now apply (HostPort_not_bare r host port).
    + eauto.
Qed.

Lemma resolveIP_rejects_empty_host_witness :
  resolveIP literal_Parse ":8080" = ("", Some (fundamental emptyHostMsg)).
Proof.
  apply (proj1 (resolveIP_rejects_empty_host literal_Parse) ":8080" ":8080" "8080").
  - reflexivity.
  - exact HostPort_bare_port.
Defined.

(** C3, as the claim has it, fails: the template error need not carry
    the address spec.  The spec {{err}}:80 does not parse as a template,
    its action naming a function that is not defined.  go-sockaddr puts the
    quoted spec into the format of its message, and [errwrap.Wrapf] then
    puts the cause in the place of every {{err}} of that format, the one in
    the spec included.  The text of the template error that [resolveIP]
    returns has neither the spec nor its action in it. *)
Lemma template_error_without_spec :
  has_template err_spec = true /\
  exists e,
    resolveIP literal_Parse err_spec = ("", Some e) /\
    classify e = Some AddressTemplateError /\
    Error e =
      "parse addr: unable to parse template " ++
      dq ++ function_not_defined "err" ++ ":80" ++ dq ++
      ": " ++ function_not_defined "err" /\
    Contains (Error e) err_spec = false /\
    Contains (Error e) "{{" = false.
Proof.
  split; [reflexivity|]. eexists. repeat split.
Qed.

(** C3, amended.  [resolveIP] checks in a fixed order.  The template is
    expanded first, and when that fails the result is the template error,
    whatever else is wrong with the spec: the error of the template library
    wrapped under "parse addr", with the text of that error kept, so that
    it names the spec wherever the library's text does.  Only then is the
    expanded string split, and when it is of neither address form the result
    is the format error, on the expanded string.  The empty-host check is
    last.  Exactly one of success and the three failures occurs. *)
Theorem resolveIP_check_order (Parse : string -> string * error) (addr : string) :
  (forall r e,
      Parse addr = (r, Some e) ->
      resolveIP Parse addr = ("", Some (withMessage e "parse addr")) /\
      resolution (resolveIP Parse addr) = Some (Failed AddressTemplateError) /\
      Error (withMessage e "parse addr") = "parse addr: " ++ Error e /\
      (forall text,
          Contains (Error e) text = true ->
          Contains (Error (withMessage e "parse addr")) text = true)) /\
  (forall resolved,
      Parse addr = (resolved, nil) ->
      (forall h p, ~ HostPort resolved h p) ->
      (exists why,
          resolveIP Parse addr =
          ("", Some (withMessage (AddrError why resolved) "split host port"))) /\
      resolution (resolveIP Parse addr) = Some (Failed AddressFormatError)) /\
  (forall resolved port,
      Parse addr = (resolved, nil) ->
      HostPort resolved "" port ->
      resolveIP Parse addr = ("", Some (fundamental emptyHostMsg)) /\
      resolution (resolveIP Parse addr) = Some (Failed EmptyHostError)) /\
  (forall resolved host port,
      Parse addr = (resolved, nil) ->
      HostPort resolved host port -> host <> "" ->
      resolveIP Parse addr = (resolved, nil) /\
      resolution (resolveIP Parse addr) = Some (Resolved resolved)) /\
  (exists! k, resolution (resolveIP Parse addr) = Some k).
Proof.
  split; [|split; [|split; [|split]]].
  - intros r e HP. rewrite (resolveIP_template_error Parse addr r e HP).
    split; [reflexivity|]. split; [reflexivity|]. split; [reflexivity|].
    intros text Ht.
    apply (Contains_app_right "parse addr: " (Error e) text Ht).
  - intros resolved HP Hno.
    destruct (resolveIP_format_error Parse addr resolved HP Hno) as [why E].
    rewrite E. split; [exists why|]; reflexivity.
  - intros resolved port HP Hform.
    rewrite (resolveIP_empty_host Parse addr resolved port HP Hform).
    split; reflexivity.
  - intros resolved host port HP Hform Hne.
    rewrite (resolveIP_success Parse addr resolved host port HP Hform Hne).
    split; reflexivity.
  - destruct (resolveIP Parse addr) as [r [e|]] eqn:E.
    + apply resolveIP_failure_inv in E.
      destruct E as [_ [(r0 & e0 & _ & ->)|[(rs & why & _ & _ & ->)|(rs & p & _ & _ & ->)]]].
      * exists (Failed AddressTemplateError). split; [reflexivity|].
        intros k Hk. cbn in Hk. congruence.
      * exists (Failed AddressFormatError). split; [reflexivity|].
        intros k Hk. cbn in Hk. congruence.
      * exists (Failed EmptyHostError). split; [reflexivity|].
        intros k Hk. cbn in Hk. congruence.
    + exists (Resolved r). split; [reflexivity|].
      intros k Hk. cbn in Hk. congruence.
Qed.

(** For the unclosed action the library's message has the quoted spec, and
    so has the template error. *)
Lemma resolveIP_check_order_witness :
  resolveIP literal_Parse "{{" =
    ("", Some (withMessage (unable_to_parse "{{" unclosed_action) "parse addr")) /\
  Contains (Error (withMessage (unable_to_parse "{{" unclosed_action) "parse addr"))
           (dq ++ "{{" ++ dq) = true.
Proof.
  pose proof (proj1 (resolveIP_check_order literal_Parse "{{")
                "" (unable_to_parse "{{" unclosed_action) eq_refl) as H.
  split.
  - exact (proj1 H).
  - apply (proj2 (proj2 (proj2 H))). reflexivity.
Defined.

(** C8.  [resolveIP] never validates the port: whenever the expansion is
    host:port with a non-empty host, it succeeds whatever the port is, also
    when it is empty ("localhost:") or not a number ("localhost:notaport").
    It fails only when the template expansion fails, when the expansion is
    of neither address form, or when the host is empty.  The template
    library is taken to expand text without template syntax to itself. *)
Theorem resolveIP_ignores_port (Parse : string -> string * error) :
  (forall s, has_template s = false -> Parse s = (s, nil)) ->
  (forall addr host port,
      Parse addr = (host ++ ":" ++ port, nil) ->
      host <> "" ->
      free_of ":" host -> free_of "[" host -> free_of "]" host ->
      free_of ":" port -> free_of "[" port -> free_of "]" port ->
      resolveIP Parse addr = (host ++ ":" ++ port, nil)) /\
  resolveIP Parse "localhost:" = ("localhost:", nil) /\
  resolveIP Parse "localhost:notaport" = ("localhost:notaport", nil) /\
  (forall addr r e,
      resolveIP Parse addr = (r, Some e) ->
      (exists r0 e0, Parse addr = (r0, Some e0)) \/
      (exists resolved,
          Parse addr = (resolved, nil) /\ forall h p, ~ HostPort resolved h p) \/
      (exists resolved port,
          Parse addr = (resolved, nil) /\ HostPort resolved "" port)).
Proof.
  intro Hlit.
  assert (Hport : forall addr host port,
      Parse addr = (host ++ ":" ++ port, nil) ->
      host <> "" ->
      free_of ":" host -> free_of "[" host -> free_of "]" host ->
      free_of ":" port -> free_of "[" port -> free_of "]" port ->
      resolveIP Parse addr = (host ++ ":" ++ port, nil)).
  { intros addr host port HP Hne ? ? ? ? ? ?.
    apply (resolveIP_success Parse addr _ host port); auto.
    now apply HostPort_plain. }
  split; [exact Hport|]. split; [|split].
  - apply (Hport "localhost:" "localhost" "");
      try (apply Hlit; reflexivity); try discriminate;
      cbn; repeat split; discriminate.
  - apply (Hport "localhost:notaport" "localhost" "notaport");
      try (apply Hlit; reflexivity); try discriminate;
      cbn; repeat split; discriminate.
  - intros addr r e E. apply resolveIP_failure_inv in E.
    destruct E as [_ [(r0 & e0 & HP & _)|[(rs & why & HP & Hno & _)|(rs & p & HP & Hform & _)]]];
      eauto 6.
Qed.

Lemma resolveIP_ignores_port_witness :
  resolveIP literal_Parse "localhost:notaport" = ("localhost:notaport", nil).
Proof.
  apply (resolveIP_ignores_port literal_Parse literal_Parse_literal).
Defined.

(** ** Start-up *)

Lemma len_positive (s : string) : (0 <? len s) = true -> s <> "".
Proof. intros H ->. discriminate. Qed.

Lemma len_not_positive (s : string) : (0 <? len s) = false -> s = "".
Proof.
  intro H. destruct s as [|x s]; [reflexivity|].
  rewrite len_String in H. pose proof (len_nonneg s).
  apply Z.ltb_ge in H. lia.
Qed.

(** C10.  The working directory is changed only for a non-empty --dir:
    every [os.Chdir] in the trace is for the value of the flag, which is
    then not empty, and so is every report of a failed change; when --dir is
    empty, as it is by default, there is no [os.Chdir] and the process ends
    in the working directory it started in. *)
Theorem chdir_only_with_dir (h : Host) (args : CommandLine) (d : string) :
  (forall dir,
      In (EvChdir dir) (trace (snd (main h args (boot d)))) ->
      dir = flag_String (arg_dir args) "" /\ dir <> "") /\
  (forall why,
      In (EvLog ("failed to chdir to: " ++ why))
         (trace (snd (main h args (boot d)))) ->
      flag_String (arg_dir args) "" <> "") /\
  (flag_String (arg_dir args) "" = "" ->
   (forall dir, ~ In (EvChdir dir) (trace (snd (main h args (boot d))))) /\
   cwd (snd (main h args (boot d))) = d).
Proof.
  on_command_line args.
  2, 3: run_unfold; (split; [|split]);
    [ intros dir Hin; in_trace Hin
    | intros why Hin; in_trace Hin
    | intros _; split; [intros dir Hin; in_trace Hin | reflexivity] ].
  destruct (0 <? len (flag_String (given_dir given) "")) eqn:Hlen.
  - pose proof (len_positive _ Hlen) as Hne.
    split; [|split].
    + intros dir. run_unfold. rewrite Hlen.
      run_split; intro Hin; in_trace Hin;
        injection Hin as <-; (split; [reflexivity | assumption]).
    + intros why _. exact Hne.
    + intro E. contradiction.
  - apply len_not_positive in Hlen.
    assert (Hno : forall dir,
               ~ In (EvChdir dir) (trace (snd (main h (Parsed given) (boot d)))) /\
               cwd (snd (main h (Parsed given) (boot d))) = d).
    { intros dir. run_unfold. rewrite Hlen.
      change (0 <? len "") with false.
      run_split; (split; [|reflexivity]); intro Hin; in_trace Hin. }
    split; [|split].
    + intros dir Hin. now apply (Hno dir) in Hin.
    + intros why. run_unfold. rewrite Hlen.
      change (0 <? len "") with false.
      run_split; intro Hin; in_trace Hin; discriminate.
    + intros _. split.
      * intros dir. apply (Hno dir).
      * apply (Hno "").
Qed.

Lemma chdir_only_with_dir_witness :
  (forall dir,
      ~ In (EvChdir dir) (trace (snd (main sample_host no_flags (boot "/home"))))) /\
  cwd (snd (main sample_host no_flags (boot "/home"))) = "/home".
Proof.
  apply (proj2 (proj2 (chdir_only_with_dir sample_host no_flags "/home"))).
  reflexivity.
Defined.



(** C5.  With repo-mode, when the environment loaded at the working
    directory is not a valid repository, the process ends fatally: it exits
    with status 1 right after logging, and the server is neither built nor
    bound nor started.  When the environment has been loaded, what is logged
    last is that the repository failed to load. *)
Theorem invalid_repository_is_fatal (h : Host) (args : CommandLine) (d : string) :
  flag_Bool (arg_repo_mode args) false = true ->
  Valid (host_env_Load h (LocalFS (cwd (snd (main h args (boot d)))))) = false ->
  fst (main h args (boot d)) = Exits 1 /\
  (exists msg, last (trace (snd (main h args (boot d)))) EvGoServe = EvLog msg) /\
  (forall sargs, ~ In (EvNewServer sargs) (trace (snd (main h args (boot d))))) /\
  ~ In EvListeners (trace (snd (main h args (boot d)))) /\
  ~ In EvGoServe (trace (snd (main h args (boot d)))) /\
  (forall fs,
      In (EvEnvLoad fs) (trace (snd (main h args (boot d)))) ->
      last (trace (snd (main h args (boot d)))) EvGoServe =
      EvLog "repo-mode failed to load repository").
Proof.
  on_command_line args; intros Hmode; try discriminate Hmode.
  run_unfold. rewrite Hmode.
  run_split; intro Hinv; try congruence;
    (split; [reflexivity|]);
    (split; [eexists; reflexivity|]);
    repeat split; try intros ? Hin; try intro Hin; in_trace Hin; reflexivity.
Qed.

Lemma invalid_repository_is_fatal_witness :
  fst (main sample_host repo_mode_flags (boot "/home")) = Exits 1.
Proof.
  apply (invalid_repository_is_fatal sample_host repo_mode_flags "/home");
    reflexivity.
Defined.

(** When [GracefulStop] has been invoked and returns, [run] returns nil;
    and the stop was preceded by a signal. *)
Lemma run_after_graceful_stop (h : Host) (args : CommandLine) (d : string) :
  In EvGracefulStop (trace (snd (run h args (boot d)))) ->
  host_GracefulStop_returns h = true ->
  fst (run h args (boot d)) = Returns nil /\
  exists sig, In (EvSignalReceived sig) (trace (snd (run h args (boot d)))).
Proof.
  run_split; intros Hin Hret; in_trace Hin; try congruence.
  all: split; [reflexivity|]; eexists; cbn [In];
    repeat (first [left; reflexivity | right]).
Qed.

(** [run] returns nil only after [GracefulStop]. *)
Lemma run_returns_nil (h : Host) (args : CommandLine) (d : string) :
  fst (run h args (boot d)) = Returns nil ->
  In EvGracefulStop (trace (snd (run h args (boot d)))).
Proof.
  run_split; intro H; try discriminate H;
    cbn [In]; repeat (first [left; reflexivity | right]).
Qed.

(** Once the signal has been received, [GracefulStop] is invoked. *)
Lemma run_stops_on_signal (h : Host) (args : CommandLine) (d : string) (sig : Signal) :
  In (EvSignalReceived sig) (trace (snd (run h args (boot d)))) ->
  In EvGracefulStop (trace (snd (run h args (boot d)))).
Proof.
  run_split; intro H; in_trace H;
    cbn [In]; repeat (first [left; reflexivity | right]).
Qed.

(** C7.  After a graceful stop, which only a signal brings about, has
    completed, [run] returns nil and [main] returns without logging
    anything more, so that the exit status is zero.  [main] takes its fatal
    path, logging the error and exiting with status 1, exactly when [run]
    returns an error that is not nil. *)
Theorem graceful_stop_exits_zero (h : Host) (args : CommandLine) (d : string) :
  (In EvGracefulStop (trace (snd (run h args (boot d)))) ->
   host_GracefulStop_returns h = true ->
   (exists sig, In (EvSignalReceived sig) (trace (snd (run h args (boot d))))) /\
   fst (run h args (boot d)) = Returns nil /\
   main h args (boot d) = (Returns tt, snd (run h args (boot d))) /\
   exit_status (fst (main h args (boot d))) = Some 0) /\
  (forall e,
      fst (run h args (boot d)) = Returns (Some e) ->
      main h args (boot d) =
      (Exits 1,
       {| cwd := cwd (snd (run h args (boot d)));
          trace := (trace (snd (run h args (boot d))) ++
                    [EvLog ("error: " ++ Error e)])%list |})) /\
  (trace (snd (main h args (boot d))) <> trace (snd (run h args (boot d))) ->
   exists e, fst (run h args (boot d)) = Returns (Some e)).
Proof.
  split; [|split].
  - intros Hin Hret.
    destruct (run_after_graceful_stop h args d Hin Hret) as [Hnil Hsig].
    split; [exact Hsig|]. split; [exact Hnil|].
    rewrite main_after_run.
    destruct (run h args (boot d)) as [o p']. cbn in Hnil. subst o.
    split; reflexivity.
  - intros e He. rewrite main_after_run.
    destruct (run h args (boot d)) as [o p']. cbn in He. subst o. reflexivity.
  - rewrite main_after_run.
    destruct (run h args (boot d)) as [[[e|]|code|] p']; cbn;
      intro Hne; try congruence.
    exists e. reflexivity.
Qed.

Lemma graceful_stop_exits_zero_witness :
  exit_status (fst (main sample_host no_flags (boot "/home"))) = Some 0.
Proof.
  apply (proj1 (graceful_stop_exits_zero sample_host no_flags "/home")).
  - vm_compute. repeat (first [left; reflexivity | right]).
  - reflexivity.
Defined.

(** C9, as the claim has it, fails: the change of directory comes before
    the addresses.  With a --dir that does not exist and a grpc address
    without a host, [run] does not return the grpc error: the process has
    exited already, the failure it reports is that of the change of
    directory, and no address has been looked at. *)
Lemma grpc_error_preempted_by_chdir :
  snd (resolveIP (template_Parse sample_host) ":50051") =
    Some (fundamental emptyHostMsg) /\
  fst (run sample_host bad_dir_flags (boot "/home")) <>
    Returns (Some (withMessage (fundamental emptyHostMsg) "parse grpc addr")) /\
  run sample_host bad_dir_flags (boot "/home") =
    (Exits 1,
     {| cwd := "/home";
        trace :=
          [EvChdir "/nonexistent";
           EvLog "failed to chdir to: /nonexistent error: chdir /nonexistent: no such file or directory"] |}).
Proof.
  repeat split. discriminate.
Qed.

(** C9, amended.  The grpc address is resolved strictly before the http
    address.  If the grpc address spec is invalid, the http address spec is
    never examined; and unless the process has exited already, in
    [flag.Parse] or because the change into --dir failed, [run] returns the
    error of the grpc address wrapped under "parse grpc addr", which is then
    what [main] reports.  In [flag.Parse] the process exits with status 0
    when asked for help and with status 2 on a command line it rejects,
    before anything else is done. *)
Theorem grpc_address_resolved_first (h : Host) (args : CommandLine) (d : string) :
  (filter is_resolve (trace (snd (run h args (boot d)))) = [] \/
   filter is_resolve (trace (snd (run h args (boot d)))) =
     [EvResolveIP (flag_String (arg_grpc_addr args) "localhost:50051")] \/
   filter is_resolve (trace (snd (run h args (boot d)))) =
     [EvResolveIP (flag_String (arg_grpc_addr args) "localhost:50051");
      EvResolveIP (flag_String (arg_http_addr args) "localhost:80")]) /\
  (forall e,
      snd (resolveIP (template_Parse h)
             (flag_String (arg_grpc_addr args) "localhost:50051")) = Some e ->
      (fst (run h args (boot d)) = Returns (Some (withMessage e "parse grpc addr")) /\
       filter is_resolve (trace (snd (run h args (boot d)))) =
         [EvResolveIP (flag_String (arg_grpc_addr args) "localhost:50051")] /\
       last (trace (snd (main h args (boot d)))) EvGoServe =
         EvLog ("error: parse grpc addr: " ++ Error e))
      \/
      (fst (run h args (boot d)) = Exits 1 /\
       filter is_resolve (trace (snd (run h args (boot d)))) = [] /\
       flag_String (arg_dir args) "" <> "" /\
       snd (host_Chdir h d (flag_String (arg_dir args) "")) <> nil)
      \/
      (args = Help \/ exists problem, args = BadFlag problem)) /\
  (args = Help ->
   run h args (boot d) = (Exits 0, {| cwd := d; trace := [EvUsage] |})) /\
  (forall problem,
      args = BadFlag problem ->
      run h args (boot d) =
      (Exits 2, {| cwd := d; trace := [EvFlagError problem; EvUsage] |})).
Proof.
  split; [|split; [|split]].
  - run_split; cbn; tauto.
  - intros e. on_command_line args.
    + destruct (0 <? len (flag_String (given_dir given) "")) eqn:Hlen.
      * pose proof (len_positive _ Hlen) as Hne.
        run_unfold. rewrite Hlen.
        run_split; cbn [snd]; intro He; try discriminate He;
          try (injection He as ->);
          first [ left; repeat split; reflexivity
                | right; left; repeat split; (assumption || discriminate) ].
      * run_unfold. rewrite Hlen.
        run_split; cbn [snd]; intro He; try discriminate He;
          try (injection He as ->);
          left; repeat split; reflexivity.
    + intros _. right; right. left. reflexivity.
    + intros _. right; right. right. exists problem. reflexivity.
  - intros ->. reflexivity.
  - intros problem ->. reflexivity.
Qed.

Lemma grpc_address_resolved_first_witness :
  fst (run sample_host bad_addr_flags (boot "/home")) =
    Returns (Some (withMessage (fundamental emptyHostMsg) "parse grpc addr")) /\
  run sample_host bogus_flag_line (boot "/home") =
    (Exits 2,
     {| cwd := "/home";
        trace := [EvFlagError "flag provided but not defined: -bogus"; EvUsage] |}).
Proof.
  split.
  - destruct (proj1 (proj2 (grpc_address_resolved_first sample_host bad_addr_flags "/home"))
                (fundamental emptyHostMsg) eq_refl) as [[H _]|[[H _]|[H|[problem H]]]].
    + exact H.
    + discriminate H.
    + discriminate H.
    + discriminate H.
  - exact (proj2 (proj2 (proj2
             (grpc_address_resolved_first sample_host bogus_flag_line "/home")))
             "flag provided but not defined: -bogus" eq_refl).
Defined.

(** ** The lifecycle *)

(** An execution in which the interrupt arrives while the server serves. *)
Lemma sample_execution :
  exists st,
    Lifecycle.execution
      [EvGoServe; EvServeEntered; EvSignalNotify;
       EvSignalDelivered Interrupt; EvSignalReceived Interrupt;
       EvGracefulStop] st /\
    Lifecycle.control st = Lifecycle.AtReturn.
Proof.
  eexists. split.
  - eapply (Lifecycle.exec_step
             [EvGoServe; EvServeEntered; EvSignalNotify;
              EvSignalDelivered Interrupt; EvSignalReceived Interrupt]).
    + eapply (Lifecycle.exec_step
               [EvGoServe; EvServeEntered; EvSignalNotify;
                EvSignalDelivered Interrupt]).
      * eapply (Lifecycle.exec_step [EvGoServe; EvServeEntered; EvSignalNotify]).
        -- eapply (Lifecycle.exec_step [EvGoServe; EvServeEntered]).
           ++ eapply (Lifecycle.exec_step [EvGoServe]).
              ** eapply (Lifecycle.exec_step []).
                 --- apply Lifecycle.exec_init.
                 --- apply Lifecycle.step_go; reflexivity.
              ** apply Lifecycle.step_serve_enter; reflexivity.
           ++ apply Lifecycle.step_notify; reflexivity.
        -- apply Lifecycle.step_deliver; reflexivity.
      * apply Lifecycle.step_receive; reflexivity.
    + apply Lifecycle.step_stop; reflexivity.
  - reflexivity.
Qed.

(** C6, as the claim has it, fails: [GracefulStop] can be invoked before
    serving has started.  The go statement of line 98 only creates the
    goroutine that is to call [server.Serve]; when that goroutine runs is
    up to the scheduler.  In the execution below the control task goes on
    to register for the signals, an interrupt is delivered and received, and
    [GracefulStop] is invoked while the goroutine has not been scheduled; it
    enters [server.Serve] only afterwards.  The steps of the control task in
    this execution are those of the run of the sample host. *)
Lemma graceful_stop_before_serve_entered :
  exists st_stop st_serve,
    Lifecycle.execution
      [EvGoServe; EvSignalNotify; EvSignalDelivered Interrupt;
       EvSignalReceived Interrupt; EvGracefulStop] st_stop /\
    Lifecycle.serving st_stop = Lifecycle.Started /\
    Lifecycle.step st_stop EvServeEntered st_serve /\
    Lifecycle.execution
      [EvGoServe; EvSignalNotify; EvSignalDelivered Interrupt;
       EvSignalReceived Interrupt; EvGracefulStop; EvServeEntered] st_serve /\
    Lifecycle.serving st_serve = Lifecycle.InServe /\
    control_events
      [EvGoServe; EvSignalNotify; EvSignalDelivered Interrupt;
       EvSignalReceived Interrupt; EvGracefulStop; EvServeEntered] =
    control_events (trace (snd (run sample_host no_flags (boot "/home")))).
Proof.
  destruct execution_stopped as (st & E & _ & Hs & Ha).
  pose proof (Lifecycle.step_serve_enter st Ha Hs) as Hstep.
  eexists st, _.
  split; [exact E|]. split; [exact Hs|]. split; [exact Hstep|].
  split; [|split; reflexivity].
  exact (Lifecycle.exec_step _ _ _ _ E Hstep).
Qed.

(** C6, amended.  In every run of the lifecycle, [GracefulStop] is not
    invoked before the go statement has started the serving task, nor
    before a termination signal has been received; the go statement is
    executed once only, and not again after the stop; and [GracefulStop] is
    invoked once only.  Of [run] on every host: once the server is built and
    its listeners are bound, it executes the go statement, registers for the
    signals and waits; it hangs there when no signal arrives; when one
    arrives it receives it and invokes [GracefulStop], and returns nil if
    that returns.  A run that returns nil, or hangs, has done so; a run that
    returns an error or exits has not executed the go statement.  What [run]
    does from the go statement on is what the control task does in an
    execution in which the control task, the serving task and the delivery
    of signals are interleaved.  Of every such execution the same order
    holds, and moreover the signal received is one that was delivered
    before, and no step takes the lifecycle from Stopping back to Serving or
    from Serving back to Starting. *)
Theorem graceful_stop_after_serving :
  (forall h args d,
      stop_ordered (trace (snd (run h args (boot d)))) /\
      at_most_once EvGoServe (trace (snd (run h args (boot d)))) /\
      (forall sargs,
          In (EvNewServer sargs) (trace (snd (run h args (boot d)))) ->
          host_NewServer h sargs = nil ->
          snd (host_Listeners h {| serverArgs := sargs |}) = nil ->
          ends_with (trace (snd (run h args (boot d))))
                    (EvListeners :: lifecycle_of h) /\
          fst (run h args (boot d)) =
            match host_signal h with
            | Some _ => if host_GracefulStop_returns h then Returns nil else Blocks
            | None => Blocks
            end) /\
      (fst (run h args (boot d)) = Returns nil ->
       host_GracefulStop_returns h = true /\
       exists sig,
         host_signal h = Some sig /\
         ends_with (trace (snd (run h args (boot d))))
                   (EvListeners :: lifecycle_events sig)) /\
      (fst (run h args (boot d)) = Blocks ->
       ends_with (trace (snd (run h args (boot d))))
                 (EvListeners :: lifecycle_of h) /\
       (host_signal h = None \/ host_GracefulStop_returns h = false)) /\
      (forall e,
          fst (run h args (boot d)) = Returns (Some e) ->
          In (EvResolveIP (flag_String (arg_grpc_addr args) "localhost:50051"))
             (trace (snd (run h args (boot d)))) /\
          ~ In EvGoServe (trace (snd (run h args (boot d))))) /\
      (forall code,
          fst (run h args (boot d)) = Exits code ->
          ~ In EvGoServe (trace (snd (run h args (boot d))))) /\
      (host_signal h <> Some Kill ->
       exists tr st,
         Lifecycle.execution tr st /\
         control_events tr = control_events (trace (snd (run h args (boot d)))))) /\
  (forall tr st,
      Lifecycle.execution tr st ->
      stop_ordered tr /\
      at_most_once EvGoServe tr /\
      (forall pre post,
          tr = (pre ++ EvGracefulStop :: post)%list ->
          exists sig, In (EvSignalDelivered sig) pre) /\
      (Lifecycle.control st = Lifecycle.AtReturn -> In EvGracefulStop tr) /\
      (forall ev st',
          Lifecycle.step st ev st' ->
          (Lifecycle.phase_rank (Lifecycle.phase st) <=
           Lifecycle.phase_rank (Lifecycle.phase st'))%nat)).
Proof.
  split.
  - intros h args d.
    destruct (run_control_events h args d) as (sig & n & E).
    split; [exact (stop_ordered_of_control _ sig n E)|].
    split; [exact (at_most_once_of_control _ sig n EvGoServe E eq_refl)|].
    split; [intro sargs; apply run_serves|].
    destruct (run_outcome h args d) as (H1 & H2 & H3 & H4).
    split; [exact H1|]. split; [exact H2|]. split; [exact H3|].
    split; [exact H4|]. apply run_is_scheduled.
  - intros tr st Hexec.
    destruct (LifecycleFacts.execution_history tr st Hexec) as [sig E].
    destruct (LifecycleFacts.history_firstn (Lifecycle.control st) sig) as [n En].
    rewrite En in E.
    assert (Hord : stop_ordered tr)
      by exact (stop_ordered_of_control tr sig n E).
    split; [exact Hord|].
    split; [exact (at_most_once_of_control tr sig n EvGoServe E eq_refl)|].
    split.
    + intros pre post Etr.
      destruct (Hord pre post Etr) as (_ & [sig' Hrecv] & _).
      apply in_split in Hrecv. destruct Hrecv as (pre1 & pre2 & ->).
      exists sig'. apply in_or_app. left.
      apply (proj2 (LifecycleFacts.execution_delivered tr st Hexec)
               pre1 (pre2 ++ EvGracefulStop :: post)%list sig').
      rewrite Etr, <- app_assoc. reflexivity.
    + split.
      * intro Hret. rewrite <- En, Hret in E. apply In_control_events.
        rewrite E. cbn. tauto.
      * intros ev st'. apply LifecycleFacts.step_phase.
Qed.

Lemma graceful_stop_after_serving_witness :
  ends_with (trace (snd (run sample_host no_flags (boot "/home"))))
            [EvListeners; EvGoServe; EvSignalNotify;
             EvSignalReceived Interrupt; EvGracefulStop] /\
  fst (run sample_host no_flags (boot "/home")) = Returns nil.
Proof.
  refine (proj1 (proj2 (proj2
            (proj1 graceful_stop_after_serving sample_host no_flags "/home")))
            default_server_args _ eq_refl eq_refl).
  vm_compute. repeat (first [left; reflexivity | right]).
Defined.

(** * Further properties *)

(** ** The address resolver *)

(** An address with a colon in its host, written without brackets, has
    too many colons. *)
Lemma SplitHostPort_too_many_colons (host port : string) :
  ~ free_of ":" host -> free_of "[" host -> free_of ":" port ->
  SplitHostPort (host ++ ":" ++ port) =
  addrErr (host ++ ":" ++ port) tooManyColons.
Proof.
  intros Hc Hl Pc. unfold SplitHostPort.
  change (host ++ ":" ++ port) with (host ++ String ":" port).
  rewrite (LastIndexByteString_app_free host port ":" Pc).
  pose proof (len_nonneg host) as Hlen.
  destruct (Z.ltb_spec (len host) 0); [lia|].
  assert (Hb : byte_is (host ++ String ":" port) 0 "[" = false).
  { destruct (byte_is (host ++ String ":" port) 0 "[") eqn:E; [|reflexivity].
    apply byte_is_head in E. destruct E as [s' E].
    destruct host as [|x host]; cbn [append] in E; [discriminate|].
    injection E as -> _. destruct Hl as [Hl _]. congruence. }
  rewrite Hb, slice_app_left.
  destruct (Z.leb_spec 0 (IndexByteString host ":")) as [_|Hneg]; [reflexivity|].
  apply IndexByteString_free in Hneg. contradiction.
Qed.

(** An address without any colon has no port. *)
Lemma SplitHostPort_missing_port (s : string) :
  free_of ":" s -> SplitHostPort s = addrErr s missingPort.
Proof.
  intro F. unfold SplitHostPort.
  apply LastIndexByteString_free in F.
  destruct (Z.ltb_spec (LastIndexByteString s ":") 0); [reflexivity | lia].
Qed.

(** X1.  Resolution is idempotent: an address that [resolveIP] has
    returned, when it is free of template syntax, resolves to itself.  The
    template library is taken to expand text without template syntax to
    itself. *)
Theorem resolveIP_idempotent
    (Parse : string -> string * error) (addr r : string) :
  (forall s, has_template s = false -> Parse s = (s, nil)) ->
  resolveIP Parse addr = (r, nil) ->
  has_template r = false ->
  resolveIP Parse r = (r, nil).
Proof.
  intros Hlit Hres Hno.
  apply resolveIP_success_inv in Hres.
  destruct Hres as [_ (host & port & Hform & Hne)].
  apply (resolveIP_success Parse r r host port); auto.
Qed.

Lemma resolveIP_idempotent_witness :
  resolveIP literal_Parse "localhost:50051" = ("localhost:50051", nil).
Proof.
  apply (resolveIP_idempotent literal_Parse "localhost:50051" "localhost:50051").
  - exact literal_Parse_literal.
  - reflexivity.
  - reflexivity.
Defined.

(** X2.  A host that contains a colon, an IPv6 literal, has to be in
    brackets.  When the expansion is [host]:port, [resolveIP] returns it;
    when it is host:port, [resolveIP] fails with the format error "too many
    colons in address" on the expansion. *)
Theorem resolveIP_colon_host_needs_brackets
    (Parse : string -> string * error) (addr host port : string) :
  ~ free_of ":" host -> free_of "[" host -> free_of "]" host ->
  free_of ":" port -> free_of "[" port -> free_of "]" port ->
  (Parse addr = ("[" ++ host ++ "]:" ++ port, nil) ->
   resolveIP Parse addr = ("[" ++ host ++ "]:" ++ port, nil)) /\
  (Parse addr = (host ++ ":" ++ port, nil) ->
   resolveIP Parse addr =
   ("", Some (withMessage (AddrError tooManyColons (host ++ ":" ++ port))
                          "split host port"))).
Proof.
  intros Hc Hl Hr Pc Pl Pr. split; intro HP.
  - apply (resolveIP_success Parse addr _ host port HP).
    + now apply HostPort_bracketed.
    + intros ->. apply Hc. exact I.
  - unfold resolveIP. rewrite HP.
    rewrite (SplitHostPort_too_many_colons host port Hc Hl Pc). reflexivity.
Qed.

Lemma resolveIP_colon_host_needs_brackets_witness :
  resolveIP literal_Parse "[::1]:80" = ("[::1]:80", nil) /\
  resolveIP literal_Parse "::1:80" =
  ("", Some (withMessage (AddrError tooManyColons "::1:80") "split host port")).
Proof.
  assert (H := resolveIP_colon_host_needs_brackets literal_Parse).
  split.
  - apply (H "[::1]:80" "::1" "80"); cbn; try tauto;
      repeat split; try discriminate; reflexivity.
  - apply (H "::1:80" "::1" "80"); cbn; try tauto;
      repeat split; try discriminate; reflexivity.
Defined.

(** X3.  An address without a colon has no port: when the expansion
    contains no colon, the empty expansion included, [resolveIP] fails with
    the format error "missing port in address", whose text names the
    expansion unless it is empty. *)
Theorem resolveIP_without_port
    (Parse : string -> string * error) (addr resolved : string) :
  Parse addr = (resolved, nil) ->
  free_of ":" resolved ->
  exists e,
    resolveIP Parse addr = ("", Some e) /\
    e = withMessage (AddrError missingPort resolved) "split host port" /\
    Error e =
      (if String.eqb resolved ""
       then "split host port: missing port in address"
       else "split host port: address " ++ resolved ++ ": missing port in address").
Proof.
  intros HP F. eexists. split; [|split; [reflexivity|]].
  - unfold resolveIP. rewrite HP, (SplitHostPort_missing_port resolved F).
    reflexivity.
  - cbn [Error]. destruct (String.eqb resolved ""); reflexivity.
Qed.

Lemma resolveIP_without_port_witness :
  exists e,
    resolveIP literal_Parse "" = ("", Some e) /\
    e = withMessage (AddrError missingPort "") "split host port" /\
    Error e = "split host port: missing port in address".
Proof.
  apply (resolveIP_without_port literal_Parse "" "").
  - reflexivity.
  - exact I.
Defined.

(** ** Start-up *)

(** X4.  The only errors [run] returns are those of the two addresses.
    A returned error is the error of the grpc address under "parse grpc
    addr", or, the grpc address having resolved, that of the http address
    under "parse http addr".  By then no filesystem has been opened and no
    server built, and [main] ends the process with status 1 after reporting
    the error with its cause. *)
Theorem run_error_returns (h : Host) (args : CommandLine) (d : string) (e : err) :
  fst (run h args (boot d)) = Returns (Some e) ->
  ((exists e0,
       snd (resolveIP (template_Parse h)
              (flag_String (arg_grpc_addr args) "localhost:50051")) = Some e0 /\
       e = withMessage e0 "parse grpc addr" /\
       Error e = "parse grpc addr: " ++ Error e0) \/
   (exists r e0,
       resolveIP (template_Parse h)
         (flag_String (arg_grpc_addr args) "localhost:50051") = (r, nil) /\
       snd (resolveIP (template_Parse h)
              (flag_String (arg_http_addr args) "localhost:80")) = Some e0 /\
       e = withMessage e0 "parse http addr" /\
       Error e = "parse http addr: " ++ Error e0)) /\
  ~ In EvLocalFilesys (trace (snd (run h args (boot d)))) /\
  (forall sargs, ~ In (EvNewServer sargs) (trace (snd (run h args (boot d))))) /\
  fst (main h args (boot d)) = Exits 1 /\
  last (trace (snd (main h args (boot d)))) EvGoServe = EvLog ("error: " ++ Error e).
Proof.
  run_split; intro H; try discriminate H; injection H as <-;
    (split; [first [ left; eexists; repeat split; reflexivity
                   | right; eexists; eexists; repeat split; reflexivity ]|]);
    repeat split; try intros ? Hin; try intro Hin; in_trace Hin.
Qed.

Lemma run_error_returns_witness :
  last (trace (snd (main sample_host bad_http_flags (boot "/home")))) EvGoServe =
  EvLog "error: parse http addr: split host port: address localhost: missing port in address".
Proof.
  apply (run_error_returns sample_host bad_http_flags "/home"
           (withMessage
              (withMessage (AddrError missingPort "localhost") "split host port")
              "parse http addr")).
  reflexivity.
Defined.

(** X5.  The server is only ever built on resolved addresses: the listen
    addresses passed to [remotesrv.NewServer] are what [resolveIP] returned
    for the two address flags, each of an address form with a non-empty
    host, and the host name and the read-only flag are passed on as given. *)
Theorem server_gets_resolved_addresses
    (h : Host) (args : CommandLine) (d : string) (sargs : ServerArgs) :
  In (EvNewServer sargs) (trace (snd (run h args (boot d)))) ->
  resolveIP (template_Parse h)
    (flag_String (arg_grpc_addr args) "localhost:50051") =
    (GrpcListenAddr sargs, nil) /\
  resolveIP (template_Parse h)
    (flag_String (arg_http_addr args) "localhost:80") =
    (HttpListenAddr sargs, nil) /\
  (exists host port, HostPort (GrpcListenAddr sargs) host port /\ host <> "") /\
  (exists host port, HostPort (HttpListenAddr sargs) host port /\ host <> "") /\
  HttpHost sargs = flag_String (arg_http_host args) "" /\
  ReadOnly sargs = flag_Bool (arg_read_only args) false.
Proof.
  intro Hin.
  assert (A : resolveIP (template_Parse h)
                (flag_String (arg_grpc_addr args) "localhost:50051") =
              (GrpcListenAddr sargs, nil) /\
              resolveIP (template_Parse h)
                (flag_String (arg_http_addr args) "localhost:80") =
              (HttpListenAddr sargs, nil) /\
              HttpHost sargs = flag_String (arg_http_host args) "" /\
              ReadOnly sargs = flag_Bool (arg_read_only args) false).
  { revert Hin. run_split; intro Hin; in_trace Hin;
      injection Hin as <-; repeat split. }
  destruct A as (Hg & Hh & Hn & Hr).
  split; [exact Hg|]. split; [exact Hh|].
  split; [exact (proj2 (resolveIP_success_inv _ _ _ Hg))|].
  split; [exact (proj2 (resolveIP_success_inv _ _ _ Hh))|].
  split; assumption.
Qed.

Lemma server_gets_resolved_addresses_witness :
  resolveIP literal_Parse "localhost:50051" =
  (GrpcListenAddr default_server_args, nil).
Proof.
  refine (proj1 (server_gets_resolved_addresses
                   sample_host no_flags "/home" default_server_args _)).
  vm_compute. repeat (first [left; reflexivity | right]).
Defined.

(** X6.  A server that cannot be built or bound is fatal, and serving
    starts only on bound listeners.  When [remotesrv.NewServer] fails the
    process exits with status 1 after logging the error, without asking for
    listeners; when the listeners fail it does the same without starting to
    serve; and whenever serving has been started, both had succeeded. *)
Theorem bootstrap_failure_is_fatal
    (h : Host) (args : CommandLine) (d : string) (sargs : ServerArgs) :
  In (EvNewServer sargs) (trace (snd (main h args (boot d)))) ->
  (forall e,
      host_NewServer h sargs = Some e ->
      fst (main h args (boot d)) = Exits 1 /\
      last (trace (snd (main h args (boot d)))) EvGoServe =
        EvLog ("error creating remotesrv Server: " ++ Error e) /\
      ~ In EvListeners (trace (snd (main h args (boot d)))) /\
      ~ In EvGoServe (trace (snd (main h args (boot d))))) /\
  (forall e,
      host_NewServer h sargs = nil ->
      snd (host_Listeners h {| serverArgs := sargs |}) = Some e ->
      fst (main h args (boot d)) = Exits 1 /\
      last (trace (snd (main h args (boot d)))) EvGoServe =
        EvLog ("error starting remotesrv Server listeners: " ++ Error e) /\
      In EvListeners (trace (snd (main h args (boot d)))) /\
      ~ In EvGoServe (trace (snd (main h args (boot d))))) /\
  (In EvGoServe (trace (snd (main h args (boot d)))) ->
   host_NewServer h sargs = nil /\
   snd (host_Listeners h {| serverArgs := sargs |}) = nil).
Proof.
  run_split; intro Hin; in_trace Hin; injection Hin as <-;
    unfold nil in *; cbn [snd] in *;
    (split; [intros err0 Hnew | split; [intros err0 Hnew Hlis | intro Hgo]]);
    try congruence; try (in_trace Hgo);
    repeat split; cbn [last]; try congruence;
    try (intro Hin; in_trace Hin); cbn [In]; auto 12.
Qed.

Lemma bootstrap_failure_is_fatal_witness :
  fst (main busy_port_host no_flags (boot "/home")) = Exits 1 /\
  last (trace (snd (main busy_port_host no_flags (boot "/home")))) EvGoServe =
    EvLog "error starting remotesrv Server listeners: listen tcp 127.0.0.1:80: bind: address already in use" /\
  In EvListeners (trace (snd (main busy_port_host no_flags (boot "/home")))) /\
  ~ In EvGoServe (trace (snd (main busy_port_host no_flags (boot "/home")))).
Proof.
  refine (proj1 (proj2 (bootstrap_failure_is_fatal
                          busy_port_host no_flags "/home" default_server_args _))
            (libError "listen tcp 127.0.0.1:80: bind: address already in use")
            eq_refl eq_refl).
  vm_compute. repeat (first [left; reflexivity | right]).
Defined.

(** X7.  The process exits with status 0, 1 or 2 and no other.  It
    exits with 0 only when it is asked for help, or when [run] has returned
    nil, after a signal was received and [GracefulStop] was invoked and
    returned.  It exits with 1 only during start-up on a command line that
    [flag.Parse] accepts: the last thing it did was to log a message, and
    serving had not been started.  It exits with 2 only when [flag.Parse]
    rejects the command line, or when, with repo-mode, the chunk store of
    the repository is no [remotesrv.RemoteSrvStore] and the type assertion
    of line 78 panics. *)
Theorem exit_status_of_main (h : Host) (args : CommandLine) (d : string) :
  (forall code,
      exit_status (fst (main h args (boot d))) = Some code ->
      code = 0 \/ code = 1 \/ code = 2) /\
  (exit_status (fst (main h args (boot d))) = Some 0 ->
   (args = Help /\ trace (snd (main h args (boot d))) = [EvUsage]) \/
   (fst (run h args (boot d)) = Returns nil /\
    In EvGracefulStop (trace (snd (main h args (boot d)))) /\
    host_GracefulStop_returns h = true /\
    exists sig,
      host_signal h = Some sig /\
      In (EvSignalReceived sig) (trace (snd (main h args (boot d)))))) /\
  (exit_status (fst (main h args (boot d))) = Some 1 ->
   (exists given, args = Parsed given) /\
   (exists msg, last (trace (snd (main h args (boot d)))) EvGoServe = EvLog msg) /\
   ~ In EvGoServe (trace (snd (main h args (boot d))))) /\
  (exit_status (fst (main h args (boot d))) = Some 2 ->
   (exists problem,
       args = BadFlag problem /\
       trace (snd (main h args (boot d))) = [EvFlagError problem; EvUsage]) \/
   (flag_Bool (arg_repo_mode args) false = true /\
    host_RemoteSrvStore h
      (DoltDB (host_env_Load h (LocalFS (cwd (snd (main h args (boot d))))))) = false /\
    last (trace (snd (main h args (boot d)))) EvGoServe = EvPanic /\
    (forall sargs, ~ In (EvNewServer sargs) (trace (snd (main h args (boot d))))))).
Proof.
  run_split; cbn [exit_status];
    (split; [intros code Hc;
             first [ discriminate Hc
                   | injection Hc as <-;
                     first [ left; reflexivity
                           | right; left; reflexivity
                           | right; right; reflexivity ] ]
            | split; [|split]; intro Hc; try discriminate Hc]).
  all: first
         [ left; split; reflexivity
         | right; split; [reflexivity|];
           split; [in_list|];
           split; [reflexivity|];
           eexists; split; [reflexivity | in_list]
         | split; [eexists; reflexivity|];
           split; [eexists; reflexivity | intro Hin; in_trace Hin]
         | left; eexists; split; reflexivity
         | right; split; [reflexivity|]; split; [assumption|];
           split; [reflexivity | intros sargs Hin; in_trace Hin] ].
Qed.

Lemma exit_status_of_main_witness :
  fst (run sample_host no_flags (boot "/home")) = Returns nil /\
  last (trace (snd (main foreign_store_host repo_dir_flags (boot "/home")))) EvGoServe =
    EvPanic.
Proof.
  split.
  - destruct (proj1 (proj2 (exit_status_of_main sample_host no_flags "/home"))
                eq_refl) as [[H _]|[H _]].
    + discriminate H.
    + exact H.
  - destruct (proj2 (proj2 (proj2
                (exit_status_of_main foreign_store_host repo_dir_flags "/home")))
                eq_refl) as [[problem [H _]]|(_ & _ & H & _)].
    + discriminate H.
    + exact H.
Defined.



Lemma len_of_nonempty (s : string) : s <> "" -> (0 <? len s) = true.
Proof.
  intro H. destruct (0 <? len s) eqn:E; [reflexivity|].
  apply len_not_positive in E. contradiction.
Qed.

(** X10.  With a non-empty --dir the one [os.Chdir] decides where the
    process works.  When it fails the process exits with status 1 right
    after logging the failure, still in the directory it started in and
    without having looked at an address.  When it succeeds the process says
    so first of all, ends up in the new directory, and every filesystem it
    uses afterwards, for the cache and for the server, is rooted there. *)
Theorem chdir_decides_working_directory
    (h : Host) (args : CommandLine) (d c : string) :
  flag_String (arg_dir args) "" <> "" ->
  (forall e,
      host_Chdir h d (flag_String (arg_dir args) "") = (c, Some e) ->
      main h args (boot d) =
      (Exits 1,
       {| cwd := d;
          trace :=
            [EvChdir (flag_String (arg_dir args) "");
             EvLog ("failed to chdir to: " ++ flag_String (arg_dir args) "" ++
                    " error: " ++ Error e)] |})) /\
  (host_Chdir h d (flag_String (arg_dir args) "") = (c, nil) ->
   cwd (snd (main h args (boot d))) = c /\
   firstn 2 (trace (snd (main h args (boot d)))) =
     [EvChdir (flag_String (arg_dir args) "");
      EvLog ("cwd set to " ++ flag_String (arg_dir args) "")] /\
   (forall fs,
       In (EvEnvLoad fs) (trace (snd (main h args (boot d)))) \/
       In (EvNewLocalCSCache fs) (trace (snd (main h args (boot d)))) ->
       fs = LocalFS c) /\
   (forall sargs,
       In (EvNewServer sargs) (trace (snd (main h args (boot d)))) ->
       FS sargs = LocalFS c)).
Proof.
  on_command_line args; intro Hne; try (now destruct Hne).
  apply len_of_nonempty in Hne. split.
  - intros e Hch. run_unfold. rewrite Hne, Hch. reflexivity.
  - intro Hch. run_unfold. rewrite Hne, Hch.
    run_split; repeat split;
      try (intros fs [Hin|Hin]; in_trace Hin; injection Hin as <-; reflexivity);
      try (intros sargs Hin; in_trace Hin; injection Hin as <-; reflexivity).
Qed.

Lemma chdir_decides_working_directory_witness :
  cwd (snd (main sample_host repo_dir_flags (boot "/home"))) = "/srv/repo".
Proof.
  refine (proj1 (proj2 (chdir_decides_working_directory
                          sample_host repo_dir_flags "/home" "/srv/repo" _) _)).
  - discriminate.
  - reflexivity.
Defined.

(** ** The lifecycle *)

Lemma received_is_control (tr : list Event) :
  filter is_received (control_events tr) = filter is_received tr.
Proof.
  unfold control_events.
  induction tr as [|ev tr IH]; [reflexivity|].
  destruct ev; cbn; rewrite ?IH; reflexivity.
Qed.

(** An execution in which three interrupts arrive: the first is received,
    the second finds the channel full and is dropped, the third stays in the
    channel. *)
Lemma noisy_execution :
  exists st,
    Lifecycle.execution
      [EvGoServe; EvSignalNotify; EvSignalDelivered Interrupt;
       EvSignalDelivered Interrupt; EvSignalReceived Interrupt;
       EvSignalDelivered Interrupt; EvGracefulStop] st.
Proof.
  eexists.
  eapply (Lifecycle.exec_step
            [EvGoServe; EvSignalNotify; EvSignalDelivered Interrupt;
             EvSignalDelivered Interrupt; EvSignalReceived Interrupt;
             EvSignalDelivered Interrupt]).
  - eapply (Lifecycle.exec_step
              [EvGoServe; EvSignalNotify; EvSignalDelivered Interrupt;
               EvSignalDelivered Interrupt; EvSignalReceived Interrupt]).
    + eapply (Lifecycle.exec_step
                [EvGoServe; EvSignalNotify; EvSignalDelivered Interrupt;
                 EvSignalDelivered Interrupt]).
      * eapply (Lifecycle.exec_step
                  [EvGoServe; EvSignalNotify; EvSignalDelivered Interrupt]).
        -- eapply (Lifecycle.exec_step [EvGoServe; EvSignalNotify]).
           ++ eapply (Lifecycle.exec_step [EvGoServe]).
              ** eapply (Lifecycle.exec_step []).
                 --- apply Lifecycle.exec_init.
                 --- apply Lifecycle.step_go; reflexivity.
              ** apply Lifecycle.step_notify; reflexivity.
           ++ apply Lifecycle.step_deliver; reflexivity.
        -- apply (Lifecycle.step_drop _ Interrupt); reflexivity.
      * apply Lifecycle.step_receive; reflexivity.
    + apply Lifecycle.step_deliver; reflexivity.
  - apply Lifecycle.step_stop; reflexivity.
Qed.

(** X11.  However many signals are delivered, [waitForSignal] takes one
    from the channel and no more, and the one it takes was delivered
    before.  In every execution of the two tasks at most one signal is
    received; where one is received, the operating system had delivered it
    earlier, and no other is received before or after.  In every run of
    [run] at most one signal is received, it is the one the host sends, and
    [signal.Notify] has been called; and what the control task does in a
    run it does in one of these executions. *)
Theorem one_signal_is_received :
  (forall tr st,
      Lifecycle.execution tr st ->
      (List.length (filter is_received tr) <= 1)%nat /\
      (forall pre post sig,
          tr = (pre ++ EvSignalReceived sig :: post)%list ->
          In (EvSignalDelivered sig) pre /\
          filter is_received pre = [] /\
          filter is_received post = [])) /\
  (forall h args d,
      (List.length (filter is_received (trace (snd (run h args (boot d))))) <= 1)%nat /\
      (forall sig,
          In (EvSignalReceived sig) (trace (snd (run h args (boot d)))) ->
          host_signal h = Some sig /\
          In EvSignalNotify (trace (snd (run h args (boot d))))) /\
      (host_signal h <> Some Kill ->
       exists tr st,
         Lifecycle.execution tr st /\
         control_events tr = control_events (trace (snd (run h args (boot d)))))).
Proof.
  split.
  - intros tr st Hexec.
    destruct (LifecycleFacts.execution_history tr st Hexec) as [sig E].
    destruct (LifecycleFacts.history_firstn (Lifecycle.control st) sig) as [n En].
    rewrite En in E.
    assert (Hone : (List.length (filter is_received tr) <= 1)%nat).
    { rewrite <- received_is_control, E.
      destruct n as [|[|[|[|n]]]]; cbn; rewrite ?firstn_nil; cbn; lia. }
    split; [exact Hone|].
    intros pre post sig' Etr.
    split; [exact (proj2 (LifecycleFacts.execution_delivered tr st Hexec)
                     pre post sig' Etr)|].
    rewrite Etr, filter_app in Hone. cbn [filter is_received] in Hone.
    rewrite length_app in Hone. cbn [List.length] in Hone.
    destruct (filter is_received pre) as [|x l]; [|cbn in Hone; lia].
    destruct (filter is_received post) as [|y l']; [|cbn in Hone; lia].
    split; reflexivity.
  - intros h args d. split; [|split].
    + run_split; cbn; lia.
    + intro sig. run_split; intro Hin; in_trace Hin; injection Hin as <-;
        (split; [reflexivity | in_list]).
    + apply run_is_scheduled.
Qed.

Lemma one_signal_is_received_witness :
  (List.length
     (filter is_received
        [EvGoServe; EvSignalNotify; EvSignalDelivered Interrupt;
         EvSignalDelivered Interrupt; EvSignalReceived Interrupt;
         EvSignalDelivered Interrupt; EvGracefulStop]) <= 1)%nat.
Proof.
  destruct noisy_execution as [st Hexec].
  exact (proj1 (proj1 one_signal_is_received _ st Hexec)).
Defined.
